(** * Sensor-Data-Unifier: a shallow embedding of [sensor_converter.py]

    The development follows the source file top-down: the Python values the
    program manipulates (decoded JSON documents), the two entry converters
    with the timestamp normaliser they rely on, the dataset converter, the
    file adapters and the [main] pipeline.

    Conventions of the embedding.
    - A Python [str] is a [string]; its characters are code points below 256.
    - A Python [int] is a [Z].  A Python [float] is a sign, a mantissa and a
      binary exponent; the not-a-number value, which only the non-standard
      JSON literal [NaN] produces, is outside the model.
    - A Python [dict] is an association list in insertion order with
      pairwise distinct keys, as [json.load] builds it.
    - A raised exception is the left summand of a sum type.  Only subclasses
      of [Exception] appear there; [sys.exit] is modelled by the outcome of
      [main] itself.
    - The local time zone of the process and the files of the working
      directory form the environment of a run; the text of a file is kept
      up to JSON decoding.
    - Calls to [logger] do not influence any returned value and are left
      out; [try] blocks whose handler only logs and re-raises are therefore
      the identity.  The one exception is the [len(...)] evaluated inside a
      log message of [main], which can raise and is kept. *)

From Stdlib Require Import ZArith QArith List String Ascii Bool Lia.
From Stdlib Require Import Sorting.Permutation Sorting.Sorted.
From stdpp Require Import gmap strings list.

Close Scope Q_scope.
Local Open Scope string_scope.
Local Open Scope list_scope.
Local Open Scope Z_scope.

(** ** Python values *)

Inductive pyfloat : Type :=
| Fzero (neg : bool)
| Finf (neg : bool)
| Ffinite (neg : bool) (m : positive) (e : Z).

#[local] Set Warnings "-register-all".

Inductive json : Type :=
| JNull
| JBool (b : bool)
| JInt (z : Z)
| JFloat (f : pyfloat)
| JStr (s : string)
| JList (l : list json)
| JDict (kvs : list (string * json)).

(** Messages of the exceptions the program raises.  A message that
    interpolates the offending entry carries the entry. *)
Inductive message : Type :=
| Missing_timestamp (entry : json)
| Missing_sensor_ID (entry : json)
| Missing_sensor_value (entry : json)
| Missing_deviceId (entry : json)
| Missing_reading (entry : json)
| Missing_time (entry : json)
| Time_data_does_not_match_format (data_string : string)
| Unconverted_data_remains (rest : string)
| Year_out_of_range (year : Z)
| Day_out_of_range_for_month
| Second_must_be_in_0_59
| Other (what : string).

Inductive exn : Type :=
| ValueError (msg : message)
| TypeError (msg : message)
| AttributeError (msg : message)
| KeyError (key : string)
| FileNotFoundError (path : string)
| IsADirectoryError (path : string)
| PermissionError (path : string)
| JSONDecodeError (path : string).

(** The error monad of the pure part of the program. *)
Definition result (A : Type) : Type := exn + A.

Definition ret {A} (a : A) : result A := inr a.
Definition raise {A} (e : exn) : result A := inl e.
Definition bind {A B} (m : result A) (k : A -> result B) : result B :=
  match m with
  | inl e => inl e
  | inr a => k a
  end.

Notation "x <- m ;; k" := (bind m (fun x => k))
  (at level 100, m at next level, right associativity).
Notation "'guard' c 'else' e ;; k" := (if c then k else raise e)
  (at level 100, c at next level, e at next level, right associativity).

(** [bool(v)]: Python's truth value of a decoded JSON value. *)
Definition truthy (v : json) : bool :=
  match v with
  | JNull => false
  | JBool b => b
  | JInt z => negb (z =? 0)
  | JFloat (Fzero _) => false
  | JFloat _ => true
  | JStr s => negb (String.eqb s "")
  | JList l => match l with [] => false | _ => true end
  | JDict kvs => match kvs with [] => false | _ => true end
  end.

(** [v is None] *)
Definition is_None (v : json) : bool :=
  match v with JNull => true | _ => false end.

Fixpoint assoc (k : string) (kvs : list (string * json)) : option json :=
  match kvs with
  | [] => None
  | (k', v) :: rest => if String.eqb k k' then Some v else assoc k rest
  end.

(** The value a [dict] holds under [key], [None] when the key is absent. *)
Definition field (key : string) (kvs : list (string * json)) : json :=
  match assoc key kvs with
  | Some v => v
  | None => JNull
  end.

(** [entry.get(key)]; [AttributeError] when [entry] is not a [dict]. *)
Definition get (entry : json) (key : string) : result json :=
  match entry with
  | JDict kvs => ret (field key kvs)
  | _ => raise (AttributeError (Other "object has no attribute 'get'"))
  end.

(** [d[key]] *)
Definition getitem (d : json) (key : string) : result json :=
  match d with
  | JDict kvs =>
      match assoc key kvs with
      | Some v => ret v
      | None => raise (KeyError key)
      end
  | JStr _ | JList _ => raise (TypeError (Other "indices must be integers"))
  | _ => raise (TypeError (Other "object is not subscriptable"))
  end.

(** ** The timestamp normaliser: [datetime.strptime] and [datetime.timestamp] *)

Module Datetime.

Record datetime : Type := mk_datetime {
  year : Z; month : Z; day : Z; hour : Z; minute : Z; second : Z
}.

(** *** The regular expression of the format ["%Y-%m-%dT%H:%M:%SZ"]

    [_strptime] turns every directive into a named group and compiles the
    result with [re.IGNORECASE]:
    - [%Y] is [\d\d\d\d];
    - [%m] is [1[0-2]|0[1-9]|[1-9]];
    - [%d] is [3[0-1]|[1-2]\d|0[1-9]|[1-9]| [1-9]];
    - [%H] is [2[0-3]|[0-1]\d|\d];
    - [%M] is [[0-5]\d|\d];
    - [%S] is [6[0-1]|[0-5]\d|\d].  *)

Inductive atom : Type :=
| Chr (c : ascii)            (* a literal, matched ignoring case *)
| Dig                        (* \d *)
| Rng (lo hi : ascii).       (* [lo-hi] *)

Inductive item : Type :=
| Plain (a : atom)
| Group (alternatives : list (list atom)).

Definition is_digit (c : ascii) : bool :=
  let n := nat_of_ascii c in ((48 <=? n) && (n <=? 57))%nat.

Definition lower (c : ascii) : ascii :=
  let n := nat_of_ascii c in
  if ((65 <=? n) && (n <=? 90))%nat then ascii_of_nat (n + 32) else c.

Definition atom_matches (a : atom) (c : ascii) : bool :=
  match a with
  | Chr x => Ascii.eqb (lower c) (lower x)
  | Dig => is_digit c
  | Rng lo hi =>
      ((nat_of_ascii lo <=? nat_of_ascii c) && (nat_of_ascii c <=? nat_of_ascii hi))%nat
  end.

(** A sequence of atoms against a prefix of [s]: the text consumed and the
    rest. *)
Fixpoint match_seq (p : list atom) (s : string) : option (string * string) :=
  match p with
  | [] => Some (EmptyString, s)
  | a :: p' =>
      match s with
      | EmptyString => None
      | String c s' =>
          if atom_matches a c then
            match match_seq p' s' with
            | Some (got, rest) => Some (String c got, rest)
            | None => None
            end
          else None
      end
  end.

(** [re.match]: alternatives are tried in order and an alternative is
    abandoned when the remainder of the pattern fails behind it
    (backtracking).  The result is the text of the groups and the
    unmatched suffix. *)
Fixpoint re_match (r : list item) (s : string) : option (list string * string) :=
  match r with
  | [] => Some ([], s)
  | Plain a :: r' =>
      match s with
      | EmptyString => None
      | String c s' => if atom_matches a c then re_match r' s' else None
      end
  | Group alternatives :: r' =>
      (fix try (alts : list (list atom)) : option (list string * string) :=
         match alts with
         | [] => None
         | alt :: alts' =>
             match match_seq alt s with
             | Some (got, rest) =>
                 match re_match r' rest with
                 | Some (groups, final) => Some (got :: groups, final)
                 | None => try alts'
                 end
             | None => try alts'
             end
         end) alternatives
  end.

Definition directive_Y : item := Group [[Dig; Dig; Dig; Dig]].
Definition directive_m : item :=
  Group [[Chr "1"; Rng "0" "2"]; [Chr "0"; Rng "1" "9"]; [Rng "1" "9"]].
Definition directive_d : item :=
  Group [[Chr "3"; Rng "0" "1"]; [Rng "1" "2"; Dig]; [Chr "0"; Rng "1" "9"];
         [Rng "1" "9"]; [Chr " "; Rng "1" "9"]].
Definition directive_H : item :=
  Group [[Chr "2"; Rng "0" "3"]; [Rng "0" "1"; Dig]; [Dig]].
Definition directive_M : item := Group [[Rng "0" "5"; Dig]; [Dig]].
Definition directive_S : item :=
  Group [[Chr "6"; Rng "0" "1"]; [Rng "0" "5"; Dig]; [Dig]].

(** ["%Y-%m-%dT%H:%M:%SZ"] *)
Definition format_regex : list item :=
  [directive_Y; Plain (Chr "-"); directive_m; Plain (Chr "-"); directive_d;
   Plain (Chr "T"); directive_H; Plain (Chr ":"); directive_M;
   Plain (Chr ":"); directive_S; Plain (Chr "Z")].

(** [int(text)] on the text of a group: decimal digits, after the leading
    blank that [%d] admits. *)
Fixpoint int_digits (acc : Z) (s : string) : Z :=
  match s with
  | EmptyString => acc
  | String c s' =>
      if is_digit c then int_digits (10 * acc + (Z.of_nat (nat_of_ascii c) - 48)) s'
      else int_digits acc s'
  end.

Definition int_of (s : string) : Z := int_digits 0 s.

(** *** Calendar arithmetic of the [datetime] module *)

Definition is_leap (y : Z) : bool :=
  (y mod 4 =? 0) && (negb (y mod 100 =? 0) || (y mod 400 =? 0)).

Definition days_in_month (y m : Z) : Z :=
  if m =? 2 then (if is_leap y then 29 else 28)
  else if (m =? 4) || (m =? 6) || (m =? 9) || (m =? 11) then 30
  else 31.

Definition days_before_year (y : Z) : Z :=
  let y' := y - 1 in y' * 365 + y' / 4 - y' / 100 + y' / 400.

Definition days_before_month (y m : Z) : Z :=
  nth (Z.to_nat m) [0; 0; 31; 59; 90; 120; 151; 181; 212; 243; 273; 304; 334] 0
  + (if (2 <? m) && is_leap y then 1 else 0).

Definition ymd_to_ord (y m d : Z) : Z :=
  days_before_year y + days_before_month y m + d.

(** Seconds since 0001-01-01T00:00:00 minus one day, as [utc_to_seconds]. *)
Definition utc_to_seconds (dt : datetime) : Z :=
  ((ymd_to_ord (year dt) (month dt) (day dt) * 24 + hour dt) * 60
   + minute dt) * 60 + second dt.

Definition epoch : Z := 719163 * 24 * 60 * 60.

Definition MINYEAR : Z := 1.

(** [datetime.strptime(data_string, "%Y-%m-%dT%H:%M:%SZ")].  The result is a
    naive [datetime]: the trailing [Z] is matched as a literal and attaches
    no time zone. *)
Definition strptime (data_string : json) : result datetime :=
  match data_string with
  | JStr s =>
      match re_match format_regex s with
      | Some ([gY; gm; gd; gH; gM; gS], rest) =>
          guard String.eqb rest "" else ValueError (Unconverted_data_remains rest) ;;
          let dt := mk_datetime (int_of gY) (int_of gm) (int_of gd)
                                (int_of gH) (int_of gM) (int_of gS) in
          guard MINYEAR <=? year dt else ValueError (Year_out_of_range (year dt)) ;;
          guard day dt <=? days_in_month (year dt) (month dt)
            else ValueError Day_out_of_range_for_month ;;
          guard second dt <=? 59 else ValueError Second_must_be_in_0_59 ;;
          ret dt
      | _ => raise (ValueError (Time_data_does_not_match_format s))
      end
  | _ => raise (TypeError (Other "strptime() argument 1 must be str"))
  end.

(** *** Local time

    The time zone of the process is part of the environment: [utcoffset u]
    is the offset, in seconds east of UTC, that the platform's [localtime]
    applies at POSIX time [u]. *)
Record timezone : Type := { utcoffset : Z -> Z }.

Definition fixed_offset (seconds : Z) : timezone := {| utcoffset := fun _ => seconds |}.
Definition UTC : timezone := fixed_offset 0.

(** [local(u)] of the [datetime] module, on seconds counted as
    [utc_to_seconds] counts them. *)
Definition local (tz : timezone) (u : Z) : Z := u + utcoffset tz (u - epoch).

Definition max_fold_seconds : Z := 24 * 3600.

(** [local_to_seconds] for [fold = 0]: solve [t = local(u)] for [u]. *)
Definition local_to_seconds (tz : timezone) (dt : datetime) : Z :=
  let t := utc_to_seconds dt in
  let a := local tz t - t in
  let u1 := t - a in
  let t1 := local tz u1 in
  let first_try :=
    if t1 =? t then
      let u2 := u1 - max_fold_seconds in
      let b := local tz u2 - u2 in
      if a =? b then Some u1 else None
    else None in
  match first_try with
  | Some u => u
  | None =>
      let b := if t1 =? t
               then local tz (u1 - max_fold_seconds) - (u1 - max_fold_seconds)
               else t1 - u1 in
      let u2 := t - b in
      let t2 := local tz u2 in
      if t2 =? t then u2
      else if t1 =? t then u1
      else Z.max u1 u2
  end.

(** [dt.timestamp()] of a naive [datetime]: it is read as local time.  The
    value is a whole number of seconds. *)
Definition timestamp (tz : timezone) (dt : datetime) : Z :=
  local_to_seconds tz dt - epoch.

End Datetime.

Import Datetime.

(** ** The entry converters *)

(** [int(x * 1000)] for the float [x] that [timestamp] returns.  [x] is a
    whole number of seconds, small enough for every date that [datetime]
    accepts that the product is an integer below [2^53] (lemma
    [timestamp_times_1000_exact]): it is exact in binary64 and truncation
    changes nothing. *)
Definition int_of_float_times_1000 (seconds : Z) : Z := seconds * 1000.

Definition unified (sensor value timestamp : json) : json :=
  JDict [("sensor", sensor); ("value", value); ("timestamp", timestamp)].

Definition convert_data1_entry (tz : timezone) (entry : json) : result json :=
  iso_time <- get entry "timestamp" ;;
  guard truthy iso_time else ValueError (Missing_timestamp entry) ;;
  dt <- strptime iso_time ;;
  let ms := int_of_float_times_1000 (timestamp tz dt) in
  sensor_id <- get entry "id" ;;
  guard truthy sensor_id else ValueError (Missing_sensor_ID entry) ;;
  sensor_value <- get entry "value" ;;
  guard negb (is_None sensor_value) else ValueError (Missing_sensor_value entry) ;;
  ret (unified sensor_id sensor_value (JInt ms)).

Definition convert_data2_entry (entry : json) : result json :=
  device_id <- get entry "deviceId" ;;
  guard truthy device_id else ValueError (Missing_deviceId entry) ;;
  reading <- get entry "reading" ;;
  guard negb (is_None reading) else ValueError (Missing_reading entry) ;;
  time <- get entry "time" ;;
  guard negb (is_None time) else ValueError (Missing_time entry) ;;
  ret (unified device_id reading time).

(** ** The dataset converter *)

Fixpoint enumerate_from {A} (i : nat) (l : list A) : list (nat * A) :=
  match l with
  | [] => []
  | x :: l' => (i, x) :: enumerate_from (S i) l'
  end.

Definition enumerate {A} (l : list A) : list (nat * A) := enumerate_from 0 l.

(** The body of the loop of [convert_dataset]: [result] grows by [append];
    an entry on which the converter raises leaves it unchanged (the handler
    only logs the index and the error). *)
Definition loop_body (converter_func : json -> result json)
  (result : list json) (indexed : nat * json) : list json :=
  let '(i, entry) := indexed in
  match converter_func entry with
  | inr converted => result ++ [converted]
  | inl e => result
  end.

Definition convert_dataset (data : list json) (converter_func : json -> result json)
  : list json :=
  fold_left (loop_body converter_func) (enumerate data) [].

(** The conversions that succeed, in the order of the entries: what the
    specification asks of the dataset converter. *)
Fixpoint conversions (converter_func : json -> result json) (data : list json)
  : list json :=
  match data with
  | [] => []
  | entry :: data' =>
      match converter_func entry with
      | inr converted => converted :: conversions converter_func data'
      | inl _ => conversions converter_func data'
      end
  end.

Definition succeeds (converter_func : json -> result json) (entry : json) : bool :=
  match converter_func entry with inr _ => true | inl _ => false end.

(** ** Comparison of Python values and [list.sort] *)

(** The numeric value of a Python number, exact: booleans are the integers
    0 and 1, and an [int] compares with a [float] without rounding. *)
Inductive number : Type :=
| Ninf (neg : bool)
| Nfin (q : Q).

Definition float_value (f : pyfloat) : number :=
  match f with
  | Fzero _ => Nfin 0%Q
  | Finf neg => Ninf neg
  | Ffinite neg m e =>
      let n := if neg then Z.neg m else Z.pos m in
      if 0 <=? e then Nfin (inject_Z (n * 2 ^ e))
      else Nfin (Qmake n (2 ^ Z.to_pos (- e)))
  end.

Definition number_of (v : json) : option number :=
  match v with
  | JBool b => Some (Nfin (inject_Z (if b then 1 else 0)))
  | JInt z => Some (Nfin (inject_Z z))
  | JFloat f => Some (float_value f)
  | _ => None
  end.

Definition number_ltb (a b : number) : bool :=
  match a, b with
  | Ninf true, Ninf true => false
  | Ninf true, _ => true
  | _, Ninf true => false
  | Ninf false, _ => false
  | Nfin _, Ninf false => true
  | Nfin p, Nfin q => match Qcompare p q with Lt => true | _ => false end
  end.

Definition number_eqb (a b : number) : bool :=
  match a, b with
  | Ninf s, Ninf s' => Bool.eqb s s'
  | Nfin p, Nfin q => Qeq_bool p q
  | _, _ => false
  end.

(** [s < t] on [str]: lexicographic on code points. *)
Fixpoint string_ltb (s t : string) : bool :=
  match s, t with
  | _, EmptyString => false
  | EmptyString, String _ _ => true
  | String a s', String b t' =>
      if (nat_of_ascii a <? nat_of_ascii b)%nat then true
      else if Ascii.eqb a b then string_ltb s' t'
      else false
  end.

(** [a == b] *)
Fixpoint py_eq (a b : json) : bool :=
  match a with
  | JNull => is_None b
  | JBool _ | JInt _ | JFloat _ =>
      match number_of a, number_of b with
      | Some x, Some y => number_eqb x y
      | _, _ => false
      end
  | JStr s => match b with JStr t => String.eqb s t | _ => false end
  | JList l =>
      match b with
      | JList l' =>
          (fix list_eq (l l' : list json) : bool :=
             match l, l' with
             | [], [] => true
             | x :: l, y :: l' => py_eq x y && list_eq l l'
             | _, _ => false
             end) l l'
      | _ => false
      end
  | JDict d =>
      match b with
      | JDict d' =>
          (length d =? length d')%nat &&
          (fix included (d : list (string * json)) : bool :=
             match d with
             | [] => true
             | (k, v) :: d =>
                 match assoc k d' with
                 | Some v' => py_eq v v'
                 | None => false
                 end && included d
             end) d
      | _ => false
      end
  end.

Definition unorderable : exn :=
  TypeError (Other "'<' not supported between instances").

(** [a < b]: numbers among themselves, strings among themselves, lists by
    their first differing element; everything else raises [TypeError]. *)
Fixpoint py_lt (a b : json) : result bool :=
  match a with
  | JBool _ | JInt _ | JFloat _ =>
      match number_of a, number_of b with
      | Some x, Some y => ret (number_ltb x y)
      | _, _ => raise unorderable
      end
  | JStr s => match b with JStr t => ret (string_ltb s t) | _ => raise unorderable end
  | JList l =>
      match b with
      | JList l' =>
          (fix list_lt (l l' : list json) : result bool :=
             match l, l' with
             | [], [] => ret false
             | [], _ :: _ => ret true
             | _ :: _, [] => ret false
             | x :: l, y :: l' => if py_eq x y then list_lt l l' else py_lt x y
             end) l l'
      | _ => raise unorderable
      end
  | JNull | JDict _ => raise unorderable
  end.

(** [list.sort(key=...)] evaluates the key of every element first and then
    sorts with [<] on the keys alone.  The sort is stable; it is modelled
    by stable insertion, which returns what every stable sort returns as
    soon as [<] orders the keys totally (numbers, strings). *)
Fixpoint insort (kx : json * json) (sorted : list (json * json))
  : result (list (json * json)) :=
  match sorted with
  | [] => ret [kx]
  | ky :: sorted' =>
      less <- py_lt (fst kx) (fst ky) ;;
      if less then ret (kx :: ky :: sorted')
      else (rest <- insort kx sorted' ;; ret (ky :: rest))
  end.

Fixpoint sort_keyed (todo : list (json * json)) (sorted : list (json * json))
  : result (list (json * json)) :=
  match todo with
  | [] => ret sorted
  | kx :: todo' => sorted' <- insort kx sorted ;; sort_keyed todo' sorted'
  end.

Fixpoint map_result {A B} (f : A -> result B) (l : list A) : result (list B) :=
  match l with
  | [] => ret []
  | x :: l' => y <- f x ;; ys <- map_result f l' ;; ret (y :: ys)
  end.

Definition list_sort (key : json -> result json) (l : list json) : result (list json) :=
  keys <- map_result key l ;;
  sorted <- sort_keyed (combine keys l) [] ;;
  ret (map snd sorted).

(** ** The environment: files, time zone, and the effects of [main] *)

(** The text of a file is kept up to JSON decoding: a file either holds the
    text of a JSON document, identified with the value [json.load] decodes
    it to, or some text that is not JSON. *)
Inductive text : Type :=
| Json_text (value : json)
| Not_json.

Inductive node : Type :=
| Directory
| File (readable writable : bool) (content : text).

Inductive event : Type :=
| Exists (path : string)
| Open_read (path : string)
| Open_write (path : string).

Record world : Type := mk_world {
  files : gmap string node;      (* the working directory *)
  may_create : bool;             (* may the process create files in it *)
  zone : timezone;               (* the local time zone of the process *)
  trace : list event             (* file-system calls made so far *)
}.

Definition record (ev : event) (w : world) : world :=
  mk_world (files w) (may_create w) (zone w) (trace w ++ [ev]).

Definition store (path : string) (n : node) (w : world) : world :=
  mk_world (<[path := n]> (files w)) (may_create w) (zone w) (trace w).

(** A computation returns, raises an [Exception], or leaves through
    [sys.exit], which [except Exception] does not intercept. *)
Inductive outcome (A : Type) : Type :=
| Returned (a : A)
| Raised (e : exn)
| Exited (code : Z).

Arguments Returned {A} a.
Arguments Raised {A} e.
Arguments Exited {A} code.

Definition io (A : Type) : Type := world -> outcome A * world.

Definition io_ret {A} (a : A) : io A := fun w => (Returned a, w).

Definition io_bind {A B} (m : io A) (k : A -> io B) : io B :=
  fun w =>
    match m w with
    | (Returned a, w') => k a w'
    | (Raised e, w') => (Raised e, w')
    | (Exited c, w') => (Exited c, w')
    end.

Notation "'do' x <- m ;; k" := (io_bind m (fun x => k))
  (at level 100, x name, m at next level, right associativity).

Definition lift {A} (r : result A) : io A :=
  fun w => match r with inr a => (Returned a, w) | inl e => (Raised e, w) end.

(** [try: body except Exception as e: handler(e)] *)
Definition try_except {A} (body : io A) (handler : exn -> io A) : io A :=
  fun w =>
    match body w with
    | (Raised e, w') => handler e w'
    | other => other
    end.

Definition sys_exit {A} (code : Z) : io A := fun w => (Exited code, w).

Definition local_zone : io timezone := fun w => (Returned (zone w), w).

Definition os_path_exists (path : string) : io bool :=
  fun w => (Returned (bool_decide (is_Some (files w !! path))), record (Exists path) w).

(** [with open(filename, 'r') as f: return json.load(f)] *)
Definition open_and_load (filename : string) : io json :=
  fun w =>
    let w' := record (Open_read filename) w in
    match files w !! filename with
    | None => (Raised (FileNotFoundError filename), w')
    | Some Directory => (Raised (IsADirectoryError filename), w')
    | Some (File readable _ content) =>
        if readable then
          match content with
          | Json_text value => (Returned value, w')
          | Not_json => (Raised (JSONDecodeError filename), w')
          end
        else (Raised (PermissionError filename), w')
    end.

(** [with open(filename, 'w') as f: json.dump(data, f, indent=2)]: the file
    is created or replaced. *)
Definition open_and_dump (filename : string) (data : json) : io unit :=
  fun w =>
    let w' := record (Open_write filename) w in
    match files w !! filename with
    | None =>
        if may_create w
        then (Returned tt, store filename (File true true (Json_text data)) w')
        else (Raised (PermissionError filename), w')
    | Some Directory => (Raised (IsADirectoryError filename), w')
    | Some (File readable writable _) =>
        if writable
        then (Returned tt, store filename (File readable writable (Json_text data)) w')
        else (Raised (PermissionError filename), w')
    end.

(** ** The file adapters *)

Definition load_json_file (filename : string) : io json :=
  try_except (open_and_load filename) (fun e => lift (raise e)).

Definition save_json_file (filename : string) (data : json) : io unit :=
  try_except (open_and_dump filename data) (fun e => lift (raise e)).

(** ** The pipeline *)

(** [len(v)] *)
Definition len (v : json) : result Z :=
  match v with
  | JStr s => ret (Z.of_nat (String.length s))
  | JList l => ret (Z.of_nat (length l))
  | JDict kvs => ret (Z.of_nat (length kvs))
  | _ => raise (TypeError (Other "object has no len()"))
  end.

(** The sequence that [enumerate(v)] walks: the items of a list, the
    characters of a string, the keys of a dict. *)
Definition iter (v : json) : result (list json) :=
  match v with
  | JStr s => ret (map (fun c => JStr (String c EmptyString)) (list_ascii_of_string s))
  | JList l => ret l
  | JDict kvs => ret (map (fun kv => JStr (fst kv)) kvs)
  | _ => raise (TypeError (Other "object is not iterable"))
  end.

Definition data1_path : string := "data-1.json".
Definition data2_path : string := "data-2.json".
Definition output_path : string := "output.json".

Definition timestamp_key (x : json) : result json := getitem x "timestamp".

(** The body of the [try] statement of [main]. *)
Definition main_body : io unit :=
  do found1 <- os_path_exists data1_path ;;
  if negb found1 then sys_exit 1 else
  do found2 <- os_path_exists data2_path ;;
  if negb found2 then sys_exit 1 else
  do data1 <- load_json_file data1_path ;;
  do data2 <- load_json_file data2_path ;;
  do _ <- lift (len data1) ;;
  do _ <- lift (len data2) ;;
  do entries1 <- lift (iter data1) ;;
  do tz <- local_zone ;;
  let converted_data1 := convert_dataset entries1 (convert_data1_entry tz) in
  do entries2 <- lift (iter data2) ;;
  let converted_data2 := convert_dataset entries2 convert_data2_entry in
  let result := converted_data1 ++ converted_data2 in
  do result <- lift (list_sort timestamp_key result) ;;
  save_json_file output_path (JList result).

Definition main : io unit :=
  try_except main_body (fun e => sys_exit 1).

(** The exit status of the process that runs [main()] as a script. *)
Definition exit_code {A} (o : outcome A) : Z :=
  match o with
  | Returned _ => 0
  | Raised _ => 1
  | Exited code => code
  end.

Definition run (w : world) : Z * world :=
  let '(o, w') := main w in (exit_code o, w').

(** ** Vocabulary of the specification *)

(** The strict shape [YYYY-MM-DDTHH:MM:SSZ]: four digits for the year, two
    for every other field, and the literal separators. *)
Definition strict_pattern (s : string) : bool :=
  match list_ascii_of_string s with
  | [y1; y2; y3; y4; s1; m1; m2; s2; d1; d2; s3; h1; h2; s4; n1; n2; s5; c1; c2; s6] =>
      forallb is_digit [y1; y2; y3; y4; m1; m2; d1; d2; h1; h2; n1; n2; c1; c2]
      && String.eqb (string_of_list_ascii [s1; s2; s3; s4; s5; s6]) "--T::Z"
  | _ => false
  end.

(** The value of a decimal digit. *)
Definition digit_value (c : ascii) : Z := Z.of_nat (nat_of_ascii c) - 48.

Definition MAXYEAR : Z := 9999.

(** A calendar date and time of day that [datetime] can hold. *)
Definition valid_datetime (dt : datetime) : Prop :=
  MINYEAR <= year dt <= MAXYEAR
  /\ 1 <= month dt <= 12
  /\ 1 <= day dt <= days_in_month (year dt) (month dt)
  /\ 0 <= hour dt <= 23
  /\ 0 <= minute dt <= 59
  /\ 0 <= second dt <= 59.

(** The fields that a string of the strict shape spells out. *)
Definition strict_fields (s : string) : datetime :=
  mk_datetime (int_of (substring 0 4 s)) (int_of (substring 5 2 s))
              (int_of (substring 8 2 s)) (int_of (substring 11 2 s))
              (int_of (substring 14 2 s)) (int_of (substring 17 2 s)).

(** The entry of the docstring of [convert_data1_entry] and the epoch
    milliseconds the docstring gives for it. *)
Definition docstring_data1 : json :=
  JDict [("id", JStr "sensor-1"); ("value", JFloat (Ffinite false 47 (-1)));
         ("timestamp", JStr "2023-06-01T12:00:00Z")].

Definition docstring_ms : Z := 1685620800000.

(** The entry of the docstring of [convert_data2_entry]. *)
Definition docstring_data2 : json :=
  JDict [("deviceId", JStr "device-2"); ("reading", JFloat (Ffinite false 457 (-1)));
         ("time", JInt 1685624400000)].

(** A zone five and a half hours east of Greenwich. *)
Definition plus_0530 : timezone := fixed_offset 19800.

(** An entry whose date is written without zero padding. *)
Definition unpadded_entry : json :=
  JDict [("id", JStr "sensor-1"); ("value", JFloat (Ffinite false 47 (-1)));
         ("timestamp", JStr "2023-6-1T12:00:00Z")].

(** A Format-B entry whose [deviceId] is the empty string. *)
Definition anonymous_entry : json :=
  JDict [("deviceId", JStr ""); ("reading", JFloat (Ffinite false 457 (-1)));
         ("time", JInt 1685624400000)].

(** The timestamp of a unified entry. *)
Definition timestamp_of (x : json) : json :=
  match timestamp_key x with
  | inr t => t
  | inl _ => JNull
  end.

Definition has_number_timestamp (x : json) : Prop :=
  exists t n, timestamp_key x = inr t /\ number_of t = Some n.

(** Ascending by timestamp: no entry is followed, at any distance, by one
    with a smaller timestamp. *)
Definition ascending (l : list json) : Prop :=
  StronglySorted (fun x y => py_lt (timestamp_of y) (timestamp_of x) = ret false) l.

(** Entries with equal timestamps keep their relative order: for every
    timestamp value, the entries that carry it form the same sequence
    before and after. *)
Definition order_kept (before after : list json) : Prop :=
  forall t,
    List.filter (fun x => py_eq (timestamp_of x) t) after
    = List.filter (fun x => py_eq (timestamp_of x) t) before.

Definition stably_sorted (before after : list json) : Prop :=
  Permutation before after /\ ascending after /\ order_kept before after.

(** What a run can read and write. *)
Definition readable_json (w : world) (path : string) : option json :=
  match files w !! path with
  | Some (File true _ (Json_text value)) => Some value
  | _ => None
  end.

Definition can_write (w : world) (path : string) : bool :=
  match files w !! path with
  | None => may_create w
  | Some Directory => false
  | Some (File _ writable _) => writable
  end.

Definition written_json (w : world) (path : string) : option json :=
  match files w !! path with
  | Some (File _ _ (Json_text value)) => Some value
  | _ => None
  end.

(** ** Stable insertion on a total order

    The pure counterpart of [insort] and [sort_keyed], used to reason about
    lists whose keys [<] orders without raising. *)

Fixpoint insert {A} (lt : A -> A -> bool) (x : A) (sorted : list A) : list A :=
  match sorted with
  | [] => [x]
  | y :: sorted' => if lt x y then x :: y :: sorted' else y :: insert lt x sorted'
  end.

Fixpoint sort_from {A} (lt : A -> A -> bool) (todo sorted : list A) : list A :=
  match todo with
  | [] => sorted
  | x :: todo' => sort_from lt todo' (insert lt x sorted)
  end.

(** [x] may stand before [y] in a sorted list. *)
Definition not_after {A} (lt : A -> A -> bool) (x y : A) : Prop := lt y x = false.

(** The position of a value on the number line; values that are not numbers
    are put at the origin. *)
Definition rank (v : json) : number :=
  match number_of v with
  | Some n => n
  | None => Nfin 0%Q
  end.

Definition earlier (x y : json) : bool :=
  number_ltb (rank (timestamp_of x)) (rank (timestamp_of y)).

Definition decorate (x : json) : json * json := (timestamp_of x, x).

(** The list that [main] sorts: the conversions of the first dataset
    followed by those of the second. *)
Definition merged (tz : timezone) (entries1 entries2 : list json) : list json :=
  convert_dataset entries1 (convert_data1_entry tz)
  ++ convert_dataset entries2 convert_data2_entry.

(** The file-system calls of a run that reaches the end. *)
Definition full_trace : list event :=
  [Exists data1_path; Exists data2_path; Open_read data1_path; Open_read data2_path;
   Open_write output_path].

(** A unified entry: exactly the keys [sensor], [value] and [timestamp],
    none of them null. *)
Definition well_formed (x : json) : Prop :=
  exists sensor value timestamp,
    x = unified sensor value timestamp
    /\ sensor <> JNull /\ value <> JNull /\ timestamp <> JNull.

(** Where an entry of the output comes from. *)
Definition from_data1 (tz : timezone) (entries1 : list json) (x : json) : Prop :=
  exists entry, In entry entries1 /\ convert_data1_entry tz entry = inr x.

Definition from_data2 (entries2 : list json) (x : json) : Prop :=
  exists entry, In entry entries2 /\ convert_data2_entry entry = inr x.

(** ** Sample environments *)

Definition readonly (value : json) : node := File true false (Json_text value).

(** The example of the specification: one entry in each input file. *)
Definition sample_world : world :=
  mk_world (<[data1_path := readonly (JList [docstring_data1])]>
            (<[data2_path := readonly (JList [docstring_data2])]> ∅))
           true UTC [].

(** [data-2.json] is absent and an earlier [output.json] is present. *)
Definition incomplete_world : world :=
  mk_world (<[data1_path := readonly (JList [docstring_data1])]>
            (<[output_path := File true true (Json_text (JList []))]> ∅))
           true UTC [].

(** A Format-B entry stamped half a millisecond after 1685624400000. *)
Definition fractional_time : json := JFloat (Ffinite false 3371248800001 (-1)).

Definition fractional_entry : json :=
  JDict [("deviceId", JStr "device-2"); ("reading", JFloat (Ffinite false 457 (-1)));
         ("time", fractional_time)].

Definition fractional_world : world :=
  mk_world (<[data1_path := readonly (JList [])]>
            (<[data2_path := readonly (JList [fractional_entry])]> ∅))
           true UTC [].

(** ** Vocabulary of the further properties *)

(** [w'] is [w] after the file-system calls [calls], every file as it was. *)
Definition after_calls (w w' : world) (calls : list event) : Prop :=
  files w' = files w /\ may_create w' = may_create w /\ zone w' = zone w
  /\ trace w' = trace w ++ calls.

(** The JSON type of a value, as far as [<] is concerned: booleans count as
    numbers. *)
Inductive kind : Type := Null | Number | Text | Array | Object.

Definition kind_of (v : json) : kind :=
  match v with
  | JNull => Null
  | JBool _ | JInt _ | JFloat _ => Number
  | JStr _ => Text
  | JList _ => Array
  | JDict _ => Object
  end.

(** The keys of a list of decorated entries are all of one kind. *)
Definition same_kinds (l : list (json * json)) : Prop :=
  forall a b, In a l -> In b l -> kind_of (fst a) = kind_of (fst b).

(** A unified entry, whatever its three values. *)
Definition is_unified (x : json) : Prop :=
  exists sensor value timestamp, x = unified sensor value timestamp.

(** A Format-B entry whose [time] is an ISO string, beside the entry of the
    docstring in [data-1.json]. *)
Definition text_time_entry : json :=
  JDict [("deviceId", JStr "device-2"); ("reading", JInt 1);
         ("time", JStr "2023-06-01T13:00:00Z")].

Definition mixed_world : world :=
  mk_world (<[data1_path := readonly (JList [docstring_data1])]>
            (<[data2_path := readonly (JList [text_time_entry])]> ∅))
           true UTC [].

(** A single Format-B entry whose [time] is a JSON object. *)
Definition object_time_entry : json :=
  JDict [("deviceId", JStr "device-2"); ("reading", JInt 1);
         ("time", JDict [("at", JStr "noon")])].

Definition lonely_world : world :=
  mk_world (<[data1_path := readonly (JList [])]>
            (<[data2_path := readonly (JList [object_time_entry])]> ∅))
           true UTC [].

(** The file that a successful [save_json_file] leaves at [path]: an
    existing file keeps its read permission, a new one is readable. *)
Definition saved_file (w : world) (path : string) (data : json) : node :=
  match files w !! path with
  | Some (File readable _ _) => File readable true (Json_text data)
  | _ => File true true (Json_text data)
  end.

(** The number of days of a year. *)
Definition year_length (y : Z) : Z := if is_leap y then 366 else 365.

(** [dt1] is an earlier date and time of day than [dt2]. *)
Definition precedes (dt1 dt2 : datetime) : Prop :=
  year dt1 < year dt2 \/ (year dt1 = year dt2 /\
  (month dt1 < month dt2 \/ (month dt1 = month dt2 /\
  (day dt1 < day dt2 \/ (day dt1 = day dt2 /\
  (hour dt1 < hour dt2 \/ (hour dt1 = hour dt2 /\
  (minute dt1 < minute dt2 \/ (minute dt1 = minute dt2 /\
   second dt1 < second dt2))))))))).

(** A field written with one or two characters. *)
Definition short (g : string) : Prop := (1 <= String.length g <= 2)%nat.

(** [s] spells the six fields in order, a four-character year and short
    other fields, with the separators [-], [-], [T], [:], [:] and a final
    [Z], the two letters in either case, and nothing else. *)
Definition spelled (s gY gm gd gH gM gS : string) : Prop :=
  exists t z,
    s = (gY ++ "-" ++ gm ++ "-" ++ gd ++ String t (gH ++ ":" ++ gM ++ ":" ++ gS
           ++ String z ""))%string
    /\ String.length gY = 4%nat
    /\ short gm /\ short gd /\ short gH /\ short gM /\ short gS
    /\ (t = "T" \/ t = "t")%char /\ (z = "Z" \/ z = "z")%char.

(** The text of a string value; other values count as the empty text. *)
Definition text_of (v : json) : string :=
  match v with JStr s => s | _ => "" end.

Definition earlier_text (x y : json) : bool :=
  string_ltb (text_of (timestamp_of x)) (text_of (timestamp_of y)).

Definition has_text_timestamp (x : json) : Prop :=
  exists s, timestamp_key x = inr (JStr s).

(** Two Format-B entries whose [time] fields are ISO strings, the later one
    first. *)
Definition text_world : world :=
  mk_world (<[data1_path := readonly (JList [])]>
            (<[data2_path := readonly (JList
                 [text_time_entry;
                  JDict [("deviceId", JStr "device-3"); ("reading", JInt 2);
                         ("time", JStr "2023-06-01T12:30:00Z")]])]> ∅))
           true UTC [].

(** * Properties *)

(** ** The dataset converter *)

Section Dataset.

Variable converter_func : json -> result json.

Lemma loop_conversions data : forall i result,
  fold_left (loop_body converter_func) (enumerate_from i data) result
  = result ++ conversions converter_func data.
Proof.
  induction data as [|entry data IH]; intros i result; cbn.
  - now rewrite app_nil_r.
  - rewrite IH. destruct (converter_func entry); [reflexivity|].
    now rewrite <- app_assoc.
Qed.

Lemma convert_dataset_conversions data :
  convert_dataset data converter_func = conversions converter_func data.
Proof. unfold convert_dataset, enumerate. apply (loop_conversions data 0%nat []). Qed.

Lemma conversions_app xs ys :
  conversions converter_func (xs ++ ys)
  = conversions converter_func xs ++ conversions converter_func ys.
Proof.
  induction xs as [|x xs IH]; cbn; [reflexivity|].
  destruct (converter_func x); cbn; now rewrite IH.
Qed.

Lemma conversions_of_survivors data :
  map converter_func (List.filter (succeeds converter_func) data)
  = map inr (conversions converter_func data).
Proof.
  induction data as [|entry data IH]; cbn; [reflexivity|].
  unfold succeeds at 1. destruct (converter_func entry) eqn:E; cbn; [assumption|].
  now rewrite E, IH.
Qed.

Lemma conversions_length data :
  (length (conversions converter_func data)
   + length (List.filter (fun entry => negb (succeeds converter_func entry)) data))%nat
  = length data.
Proof.
  induction data as [|entry data IH]; cbn; [reflexivity|].
  unfold succeeds at 1. destruct (converter_func entry); cbn; lia.
Qed.

End Dataset.

(** C10: [convert_dataset] distributes over concatenation of its input, for
    every converter: converting [xs ++ ys] gives the conversions of [xs]
    followed by the conversions of [ys]. *)
Theorem convert_dataset_app (f : json -> result json) (xs ys : list json) :
  convert_dataset (xs ++ ys) f = convert_dataset xs f ++ convert_dataset ys f.
Proof. rewrite !convert_dataset_conversions. apply conversions_app. Qed.

(** C3: [convert_dataset] is total on every list and every converter; the
    entries on which the converter raises are skipped and all others are
    converted, in their original order: the output is the conversion of
    exactly the surviving entries, and of [N] entries with [K] failures
    [N - K] remain. *)
Theorem convert_dataset_skips_failures (f : json -> result json) (data : list json) :
  let survivors := List.filter (succeeds f) data in
  let failures := List.filter (fun entry => negb (succeeds f entry)) data in
  map f survivors = map inr (convert_dataset data f) /\
  length (convert_dataset data f) = (length data - length failures)%nat.
Proof.
  cbn. rewrite convert_dataset_conversions. split.
  - apply conversions_of_survivors.
  - pose proof (conversions_length f data). lia.
Qed.

(** ** The timestamp normaliser *)

Lemma local_fixed_offset k u : local (fixed_offset k) u = u + k.
Proof. reflexivity. Qed.

(** In a zone with a constant offset the naive date is shifted by it. *)
Lemma timestamp_fixed_offset k dt :
  timestamp (fixed_offset k) dt = utc_to_seconds dt - epoch - k.
Proof.
  unfold timestamp, local_to_seconds. rewrite !local_fixed_offset.
  replace (utc_to_seconds dt - (utc_to_seconds dt + k - utc_to_seconds dt) + k =?
           utc_to_seconds dt) with true by (symmetry; apply Z.eqb_eq; lia).
  match goal with |- context [?a =? ?b] =>
    replace (a =? b) with true by (symmetry; apply Z.eqb_eq; lia) end.
  lia.
Qed.

Lemma timestamp_UTC dt : timestamp UTC dt = utc_to_seconds dt - epoch.
Proof. unfold UTC. rewrite timestamp_fixed_offset. lia. Qed.

(** A string that [strptime] rejects is rejected with a [ValueError]. *)
Lemma strptime_str_error s err :
  strptime (JStr s) = inl err -> exists msg, err = ValueError msg.
Proof.
  unfold strptime. intros H.
  destruct (re_match format_regex s) as [[groups rest]|]; [|inversion H; eauto].
  do 7 (destruct groups as [|? groups]; [inversion H; eauto|]); [|inversion H; eauto].
  revert H. cbn [year month day second].
  repeat match goal with
         | |- context [if ?c then _ else _] => destruct c
         end; intros H; inversion H; eauto.
Qed.

(** *** What [strptime] accepts

    Every string of the strict shape that spells a valid date and time is
    accepted, and whatever is accepted is a valid date and time. *)

Lemma digit_cases c :
  is_digit c = true ->
  In c ["0"; "1"; "2"; "3"; "4"; "5"; "6"; "7"; "8"; "9"]%char.
Proof.
  destruct c as [[] [] [] [] [] [] [] []]; cbn; intros H; try discriminate H; tauto.
Qed.

Ltac digits D :=
  apply digit_cases in D; cbn [In] in D;
  destruct D as [<-|[<-|[<-|[<-|[<-|[<-|[<-|[<-|[<-|[<-|[]]]]]]]]]]].

Ltac field_matches D1 D2 B R r :=
  digits D1; digits D2; vm_compute in B;
  try (exfalso; destruct B as [B1 B2]; (now apply B1) || (now apply B2));
  cbn [re_match directive_m directive_d directive_H directive_M directive_S];
  revert R; generalize (re_match r); intros k R; vm_compute; rewrite R; reflexivity.

Lemma match_month c1 c2 rest r gs final :
  is_digit c1 = true -> is_digit c2 = true ->
  1 <= int_of (String c1 (String c2 "")) <= 12 ->
  re_match r rest = Some (gs, final) ->
  re_match (directive_m :: r) (String c1 (String c2 rest))
  = Some (String c1 (String c2 "") :: gs, final).
Proof.
  intros D1 D2 B R. field_matches D1 D2 B R r.
Qed.

Lemma match_day c1 c2 rest r gs final :
  is_digit c1 = true -> is_digit c2 = true ->
  1 <= int_of (String c1 (String c2 "")) <= 31 ->
  re_match r rest = Some (gs, final) ->
  re_match (directive_d :: r) (String c1 (String c2 rest))
  = Some (String c1 (String c2 "") :: gs, final).
Proof. intros D1 D2 B R. field_matches D1 D2 B R r. Qed.

Lemma match_hour c1 c2 rest r gs final :
  is_digit c1 = true -> is_digit c2 = true ->
  0 <= int_of (String c1 (String c2 "")) <= 23 ->
  re_match r rest = Some (gs, final) ->
  re_match (directive_H :: r) (String c1 (String c2 rest))
  = Some (String c1 (String c2 "") :: gs, final).
Proof. intros D1 D2 B R. field_matches D1 D2 B R r. Qed.

Lemma match_minute c1 c2 rest r gs final :
  is_digit c1 = true -> is_digit c2 = true ->
  0 <= int_of (String c1 (String c2 "")) <= 59 ->
  re_match r rest = Some (gs, final) ->
  re_match (directive_M :: r) (String c1 (String c2 rest))
  = Some (String c1 (String c2 "") :: gs, final).
Proof. intros D1 D2 B R. field_matches D1 D2 B R r. Qed.

Lemma match_second c1 c2 rest r gs final :
  is_digit c1 = true -> is_digit c2 = true ->
  0 <= int_of (String c1 (String c2 "")) <= 59 ->
  re_match r rest = Some (gs, final) ->
  re_match (directive_S :: r) (String c1 (String c2 rest))
  = Some (String c1 (String c2 "") :: gs, final).
Proof. intros D1 D2 B R. field_matches D1 D2 B R r. Qed.

Lemma match_year c1 c2 c3 c4 rest r gs final :
  is_digit c1 = true -> is_digit c2 = true -> is_digit c3 = true -> is_digit c4 = true ->
  re_match r rest = Some (gs, final) ->
  re_match (directive_Y :: r) (String c1 (String c2 (String c3 (String c4 rest))))
  = Some (String c1 (String c2 (String c3 (String c4 ""))) :: gs, final).
Proof.
  intros D1 D2 D3 D4 R. cbn [re_match directive_Y match_seq atom_matches].
  now rewrite D1, D2, D3, D4, R.
Qed.

Lemma days_in_month_le_31 y m d : d <= days_in_month y m -> d <= 31.
Proof.
  unfold days_in_month.
  repeat match goal with |- context [if ?c then _ else _] => destruct c end; lia.
Qed.

Lemma match_separator x rest r :
  re_match (Plain (Chr x) :: r) (String x rest) = re_match r rest.
Proof. cbn [re_match atom_matches]. now rewrite Ascii.eqb_refl. Qed.

Lemma strict_pattern_accepted s :
  strict_pattern s = true -> valid_datetime (strict_fields s) ->
  strptime (JStr s) = inr (strict_fields s).
Proof.
  intros P.
  do 20 (destruct s as [|? s]; [discriminate P|]).
  destruct s; [|discriminate P].
  unfold strict_pattern in P. cbn [list_ascii_of_string] in P.
  apply andb_prop in P as [D E]. apply String.eqb_eq in E.
  cbn [string_of_list_ascii] in E. injection E as -> -> -> -> -> ->.
  cbn [forallb] in D.
  repeat match type of D with
         | (_ && _)%bool = true => let H := fresh "D" in apply andb_prop in D as [H D]
         end.
  unfold strict_fields. cbn [substring]. intros (Hy & Hm & Hd & Hh & Hn & Hs).
  cbn [year month day hour minute second] in *.
  unfold strptime, format_regex.
  erewrite match_year; try eassumption; cycle 1.
  { rewrite match_separator. apply match_month; try eassumption.
    rewrite match_separator. apply match_day; try eassumption.
    { split; [lia|]. pose proof (days_in_month_le_31 _ _ _ (proj2 Hd)). lia. }
    rewrite match_separator. apply match_hour; try eassumption.
    rewrite match_separator. apply match_minute; try eassumption.
    rewrite match_separator. apply match_second; try eassumption.
    rewrite match_separator. reflexivity. }
  cbn [String.eqb year month day second].
  destruct Hy as [Hy _], Hd as [_ Hd], Hs as [_ Hs].
  apply Z.leb_le in Hy, Hd, Hs. now rewrite Hy, Hd, Hs.
Qed.

Lemma re_match_group_inv alts r s groups final :
  re_match (Group alts :: r) s = Some (groups, final) ->
  exists alt got mid gs,
    In alt alts /\ match_seq alt s = Some (got, mid)
    /\ re_match r mid = Some (gs, final) /\ groups = got :: gs.
Proof.
  cbn [re_match]. induction alts as [|alt alts IH]; [discriminate|].
  destruct (match_seq alt s) as [[got mid]|] eqn:M.
  - destruct (re_match r mid) as [[gs final']|] eqn:R.
    + intros [= <- <-]. exists alt, got, mid, gs. cbn. auto.
    + intros H. destruct (IH H) as (alt' & got' & mid' & gs' & ? & ?).
      exists alt', got', mid', gs'. cbn. auto.
  - intros H. destruct (IH H) as (alt' & got' & mid' & gs' & ? & ?).
    exists alt', got', mid', gs'. cbn. auto.
Qed.

Lemma re_match_plain_inv a r s res :
  re_match (Plain a :: r) s = Some res ->
  exists c s', s = String c s' /\ atom_matches a c = true /\ re_match r s' = Some res.
Proof.
  cbn [re_match]. destruct s as [|c s']; [discriminate|].
  destruct (atom_matches a c) eqn:E; [|discriminate]. eauto.
Qed.

Lemma match_seq_cons_inv a p s got rest :
  match_seq (a :: p) s = Some (got, rest) ->
  exists c s' got',
    s = String c s' /\ atom_matches a c = true
    /\ match_seq p s' = Some (got', rest) /\ got = String c got'.
Proof.
  cbn [match_seq]. destruct s as [|c s']; [discriminate|].
  destruct (atom_matches a c) eqn:E; [|discriminate].
  destruct (match_seq p s') as [[got' rest']|] eqn:M; [|discriminate].
  intros [= <- <-]. exists c, s', got'. repeat split; assumption.
Qed.

Lemma match_seq_nil_inv s got rest :
  match_seq [] s = Some (got, rest) -> got = "" /\ rest = s.
Proof. now intros [= <- <-]. Qed.

Lemma is_digit_value c : is_digit c = true <-> 0 <= digit_value c <= 9.
Proof.
  unfold is_digit, digit_value. rewrite andb_true_iff, !Nat.leb_le. lia.
Qed.

Lemma atom_Rng lo hi c :
  atom_matches (Rng lo hi) c = true ->
  digit_value lo <= digit_value c <= digit_value hi.
Proof.
  unfold atom_matches, digit_value. rewrite andb_true_iff, !Nat.leb_le. lia.
Qed.

Lemma atom_Chr x c :
  (nat_of_ascii x < 65)%nat -> atom_matches (Chr x) c = true -> c = x.
Proof.
  unfold atom_matches, lower. intros Hx H. apply Ascii.eqb_eq in H.
  destruct ((65 <=? nat_of_ascii x)%nat && (nat_of_ascii x <=? 90)%nat) eqn:Ex.
  { apply andb_true_iff in Ex as [Ex _]. apply Nat.leb_le in Ex. lia. }
  destruct ((65 <=? nat_of_ascii c)%nat && (nat_of_ascii c <=? 90)%nat) eqn:Ec;
    [|assumption].
  apply andb_true_iff in Ec as [Ec1 Ec2]. apply Nat.leb_le in Ec1, Ec2.
  apply (f_equal nat_of_ascii) in H. rewrite nat_ascii_embedding in H by lia. lia.
Qed.

Lemma int_digits_digit acc c s :
  is_digit c = true -> int_digits acc (String c s) = int_digits (10 * acc + digit_value c) s.
Proof. cbn [int_digits]. now intros ->. Qed.

Lemma int_digits_blank acc s : int_digits acc (String " " s) = int_digits acc s.
Proof. reflexivity. Qed.

Ltac seq_inv H :=
  repeat first
    [ apply match_seq_cons_inv in H as (? & ? & ? & -> & ? & H & ->)
    | apply match_seq_nil_inv in H as [-> ->] ].

Ltac atom_facts :=
  repeat match goal with
         | H : atom_matches Dig ?c = true |- _ =>
             change (is_digit c = true) in H; apply is_digit_value in H
         | H : atom_matches (Rng ?lo ?hi) ?c = true |- _ =>
             apply atom_Rng in H;
             let l := eval vm_compute in (digit_value lo) in
             let h := eval vm_compute in (digit_value hi) in
             change (digit_value lo) with l in H; change (digit_value hi) with h in H
         | H : atom_matches (Chr ?x) ?c = true |- _ =>
             apply atom_Chr in H; [subst c|vm_compute; lia]
         end.

Ltac text_bounds :=
  unfold int_of;
  repeat first
    [ rewrite int_digits_blank
    | rewrite int_digits_digit by (apply is_digit_value; (vm_compute; intuition congruence) || lia) ];
  cbn [int_digits];
  repeat match goal with
         | |- context [digit_value (Ascii ?a ?b ?c ?d ?e ?f ?g ?h)] =>
             let v := eval vm_compute in (digit_value (Ascii a b c d e f g h)) in
             change (digit_value (Ascii a b c d e f g h)) with v
         end;
  lia.

Ltac group_bounds Hin H :=
  cbn [In] in Hin;
  repeat (destruct Hin as [<-|Hin]; [seq_inv H; atom_facts; text_bounds|]);
  contradiction.

Lemma year_text alt s got mid :
  In alt [[Dig; Dig; Dig; Dig]] -> match_seq alt s = Some (got, mid) ->
  0 <= int_of got <= 9999.
Proof. intros Hin H. group_bounds Hin H. Qed.

Lemma month_text alt s got mid :
  In alt [[Chr "1"; Rng "0" "2"]; [Chr "0"; Rng "1" "9"]; [Rng "1" "9"]] ->
  match_seq alt s = Some (got, mid) -> 1 <= int_of got <= 12.
Proof. intros Hin H. group_bounds Hin H. Qed.

Lemma day_text alt s got mid :
  In alt [[Chr "3"; Rng "0" "1"]; [Rng "1" "2"; Dig]; [Chr "0"; Rng "1" "9"];
          [Rng "1" "9"]; [Chr " "; Rng "1" "9"]] ->
  match_seq alt s = Some (got, mid) -> 1 <= int_of got <= 31.
Proof. intros Hin H. group_bounds Hin H. Qed.

Lemma hour_text alt s got mid :
  In alt [[Chr "2"; Rng "0" "3"]; [Rng "0" "1"; Dig]; [Dig]] ->
  match_seq alt s = Some (got, mid) -> 0 <= int_of got <= 23.
Proof. intros Hin H. group_bounds Hin H. Qed.

Lemma minute_text alt s got mid :
  In alt [[Rng "0" "5"; Dig]; [Dig]] ->
  match_seq alt s = Some (got, mid) -> 0 <= int_of got <= 59.
Proof. intros Hin H. group_bounds Hin H. Qed.

Lemma second_text alt s got mid :
  In alt [[Chr "6"; Rng "0" "1"]; [Rng "0" "5"; Dig]; [Dig]] ->
  match_seq alt s = Some (got, mid) -> 0 <= int_of got <= 61.
Proof. intros Hin H. group_bounds Hin H. Qed.

Lemma format_regex_groups s groups rest :
  re_match format_regex s = Some (groups, rest) ->
  exists gY gm gd gH gM gS,
    groups = [gY; gm; gd; gH; gM; gS]
    /\ 0 <= int_of gY <= 9999 /\ 1 <= int_of gm <= 12 /\ 1 <= int_of gd <= 31
    /\ 0 <= int_of gH <= 23 /\ 0 <= int_of gM <= 59 /\ 0 <= int_of gS <= 61.
Proof.
  unfold format_regex. intros H.
  apply re_match_group_inv in H as (aY & gY & ? & ? & IY & MY & H & ->).
  apply re_match_plain_inv in H as (? & ? & -> & _ & H).
  apply re_match_group_inv in H as (am & gm & ? & ? & Im & Mm & H & ->).
  apply re_match_plain_inv in H as (? & ? & -> & _ & H).
  apply re_match_group_inv in H as (ad & gd & ? & ? & Id & Md & H & ->).
  apply re_match_plain_inv in H as (? & ? & -> & _ & H).
  apply re_match_group_inv in H as (aH & gH & ? & ? & IH & MH & H & ->).
  apply re_match_plain_inv in H as (? & ? & -> & _ & H).
  apply re_match_group_inv in H as (aM & gM & ? & ? & IM & MM & H & ->).
  apply re_match_plain_inv in H as (? & ? & -> & _ & H).
  apply re_match_group_inv in H as (aS & gS & ? & ? & IS & MS & H & ->).
  apply re_match_plain_inv in H as (? & ? & -> & _ & [= <- <-]).
  exists gY, gm, gd, gH, gM, gS. split; [reflexivity|].
  pose proof (year_text _ _ _ _ IY MY). pose proof (month_text _ _ _ _ Im Mm).
  pose proof (day_text _ _ _ _ Id Md). pose proof (hour_text _ _ _ _ IH MH).
  pose proof (minute_text _ _ _ _ IM MM). pose proof (second_text _ _ _ _ IS MS).
  tauto.
Qed.

Lemma strptime_valid s dt : strptime (JStr s) = inr dt -> valid_datetime dt.
Proof.
  unfold strptime.
  destruct (re_match format_regex s) as [[groups rest]|] eqn:R; [|discriminate].
  apply format_regex_groups in R
    as (gY & gm & gd & gH & gM & gS & -> & HY & Hm & Hd & HH & HM & HS).
  destruct (String.eqb rest ""); [|discriminate].
  cbn [year month day second].
  destruct (MINYEAR <=? int_of gY) eqn:E1; [|discriminate].
  destruct (int_of gd <=? days_in_month (int_of gY) (int_of gm)) eqn:E2; [|discriminate].
  destruct (int_of gS <=? 59) eqn:E3; [|discriminate].
  intros [= <-]. apply Z.leb_le in E1, E2, E3.
  unfold valid_datetime, MAXYEAR. cbn [year month day hour minute second]. lia.
Qed.

Lemma days_before_month_range y m : 1 <= m <= 12 -> 0 <= days_before_month y m <= 335.
Proof.
  intros Hm. unfold days_before_month.
  assert (m = 1 \/ m = 2 \/ m = 3 \/ m = 4 \/ m = 5 \/ m = 6 \/ m = 7 \/ m = 8 \/ m = 9
          \/ m = 10 \/ m = 11 \/ m = 12) as Hcase by lia.
  destruct (is_leap y);
    destruct Hcase as [->|[->|[->|[->|[->|[->|[->|[->|[->|[->|[->| ->]]]]]]]]]]];
    vm_compute; split; discriminate.
Qed.

Lemma utc_to_seconds_range dt :
  valid_datetime dt -> 0 <= utc_to_seconds dt < 2 ^ 39.
Proof.
  destruct dt as [y m d h n s]. unfold valid_datetime, MINYEAR, MAXYEAR.
  cbn [year month day hour minute second].
  intros (Hy & Hm & Hd & Hh & Hn & Hs).
  pose proof (days_before_month_range y m Hm).
  pose proof (days_in_month_le_31 _ _ _ (proj2 Hd)).
  unfold utc_to_seconds, ymd_to_ord, days_before_year.
  cbn [year month day hour minute second].
  change (2 ^ 39) with 549755813888.
  pose proof (Z.div_pos (y - 1) 4). pose proof (Z.div_pos (y - 1) 400).
  assert (0 <= (y - 1) / 100 <= (y - 1) / 4).
  { split; [apply Z.div_pos; lia|].
    apply Z.div_le_lower_bound; [lia|].
    pose proof (Z.mul_div_le (y - 1) 100). lia. }
  assert ((y - 1) / 4 <= 2500) by (apply Z.div_le_upper_bound; lia).
  assert ((y - 1) / 400 <= 25) by (apply Z.div_le_upper_bound; lia).
  nia.
Qed.

(** The product [dt.timestamp() * 1000] stays within the integers that
    binary64 represents exactly. *)
Lemma timestamp_times_1000_exact k dt :
  valid_datetime dt -> - 86400 <= k <= 86400 ->
  - 2 ^ 53 < timestamp (fixed_offset k) dt * 1000 < 2 ^ 53.
Proof.
  intros V Hk. rewrite timestamp_fixed_offset.
  pose proof (utc_to_seconds_range dt V) as H.
  change (2 ^ 39) with 549755813888 in H. change (2 ^ 53) with 9007199254740992.
  unfold epoch. lia.
Qed.

(** ** The entry converters *)

Lemma convert_data1_entry_unfold tz kvs :
  convert_data1_entry tz (JDict kvs) =
    (guard truthy (field "timestamp" kvs) else ValueError (Missing_timestamp (JDict kvs)) ;;
     dt <- strptime (field "timestamp" kvs) ;;
     guard truthy (field "id" kvs) else ValueError (Missing_sensor_ID (JDict kvs)) ;;
     guard negb (is_None (field "value" kvs))
       else ValueError (Missing_sensor_value (JDict kvs)) ;;
     ret (unified (field "id" kvs) (field "value" kvs)
            (JInt (timestamp tz dt * 1000)))).
Proof. reflexivity. Qed.

Lemma convert_data2_entry_unfold kvs :
  convert_data2_entry (JDict kvs) =
    (guard truthy (field "deviceId" kvs) else ValueError (Missing_deviceId (JDict kvs)) ;;
     guard negb (is_None (field "reading" kvs)) else ValueError (Missing_reading (JDict kvs)) ;;
     guard negb (is_None (field "time" kvs)) else ValueError (Missing_time (JDict kvs)) ;;
     ret (unified (field "deviceId" kvs) (field "reading" kvs) (field "time" kvs))).
Proof. reflexivity. Qed.

Lemma is_None_false v : v <> JNull -> is_None v = false.
Proof. destruct v; intros H; [contradiction H|..]; reflexivity. Qed.

Lemma is_None_true v : is_None v = true -> v = JNull.
Proof. destruct v; intros H; try discriminate; reflexivity. Qed.

Lemma equal_to_zero_not_None v : py_eq v (JInt 0) = true -> v <> JNull.
Proof. intros H ->. discriminate. Qed.

Ltac first_check :=
  match goal with
  | H : ?c = _ |- context [if ?c then _ else _] => rewrite H; cbn [negb bind]
  | H : ?v <> JNull |- context [is_None ?v] => rewrite (is_None_false v H); cbn [negb bind]
  | H : ?m = _ |- context [bind ?m _] => rewrite H; cbn [bind]
  | H : ?v = JNull |- context [is_None ?v] => rewrite H; cbn [is_None negb bind]
  end.

Ltac checks := repeat first_check; try reflexivity.

(** C1: the normaliser reads the date of a Format-A entry as local time, so
    the epoch value it returns is the UTC one only in a zone without
    offset.  Five and a half hours east of Greenwich the entry of the
    docstring is converted to 1685601000000, not to the 1685620800000 the
    docstring announces. *)
Theorem convert_data1_entry_local_time :
  convert_data1_entry UTC docstring_data1
    = ret (unified (JStr "sensor-1") (JFloat (Ffinite false 47 (-1))) (JInt docstring_ms))
  /\ convert_data1_entry plus_0530 docstring_data1
    = ret (unified (JStr "sensor-1") (JFloat (Ffinite false 47 (-1)))
             (JInt (docstring_ms - 19800 * 1000)))
  /\ docstring_ms - 19800 * 1000 = 1685601000000.
Proof. repeat split; reflexivity. Qed.




(** A Format-A entry with a strict, valid timestamp, an [id] and a [value]
    is converted; its timestamp is the epoch value of the date read in the
    local zone. *)
Lemma convert_data1_entry_strict tz kvs s :
  field "timestamp" kvs = JStr s ->
  strict_pattern s = true -> valid_datetime (strict_fields s) ->
  truthy (field "id" kvs) = true -> field "value" kvs <> JNull ->
  convert_data1_entry tz (JDict kvs)
  = ret (unified (field "id" kvs) (field "value" kvs)
           (JInt (timestamp tz (strict_fields s) * 1000))).
Proof.
  intros Hs P V Hid Hv. rewrite convert_data1_entry_unfold, Hs.
  assert (truthy (JStr s) = true) as ->.
  { destruct s; [discriminate P|reflexivity]. }
  rewrite (strict_pattern_accepted s P V). cbn [bind]. checks.
Qed.

(** In a zone with offset [k] that value is the UTC one less [k] seconds. *)
Lemma convert_data1_entry_offset k kvs s :
  field "timestamp" kvs = JStr s ->
  strict_pattern s = true -> valid_datetime (strict_fields s) ->
  truthy (field "id" kvs) = true -> field "value" kvs <> JNull ->
  convert_data1_entry (fixed_offset k) (JDict kvs)
  = ret (unified (field "id" kvs) (field "value" kvs)
           (JInt ((utc_to_seconds (strict_fields s) - epoch) * 1000 - k * 1000))).
Proof.
  intros Hs P V Hid Hv.
  rewrite (convert_data1_entry_strict _ kvs s Hs P V Hid Hv), timestamp_fixed_offset.
  do 3 f_equal. lia.
Qed.






(** ** Stable insertion *)

Section StableInsertion.

Context {A : Type} (lt : A -> A -> bool).

Hypothesis lt_irrefl : forall x, lt x x = false.
Hypothesis lt_trans : forall x y z, lt x y = true -> lt y z = true -> lt x z = true.
Hypothesis lt_cotrans : forall x y z, lt x y = false -> lt y z = false -> lt x z = false.

Local Abbreviation may_precede := (not_after lt).

Lemma lt_asym x y : lt x y = true -> lt y x = false.
Proof.
  intros H. destruct (lt y x) eqn:E; [|reflexivity].
  now rewrite <- (lt_irrefl x), <- (lt_trans x y x H E).
Qed.

Lemma insert_perm x l : Permutation (x :: l) (insert lt x l).
Proof.
  induction l as [|y l IH]; cbn; [reflexivity|].
  destruct (lt x y); [reflexivity|].
  rewrite perm_swap. now constructor.
Qed.

Lemma sort_from_perm todo : forall sorted,
  Permutation (sorted ++ todo) (sort_from lt todo sorted).
Proof.
  induction todo as [|x todo IH]; intros sorted; cbn.
  - now rewrite app_nil_r.
  - rewrite <- IH, <- insert_perm. symmetry. apply Permutation_middle.
Qed.

Lemma insert_Forall (P : A -> Prop) x l : P x -> Forall P l -> Forall P (insert lt x l).
Proof.
  intros Hx Hl. eapply Permutation_Forall; [apply insert_perm|]. now constructor.
Qed.

Lemma insert_sorted x l :
  StronglySorted may_precede l -> StronglySorted may_precede (insert lt x l).
Proof.
  induction 1 as [|y l Hl IH Hy]; cbn.
  - repeat constructor.
  - destruct (lt x y) eqn:E.
    + constructor; [now constructor|]. constructor.
      * now apply lt_asym.
      * eapply Forall_impl; [exact Hy|]. intros z Hz. unfold not_after in *.
        apply (lt_cotrans z y x Hz). now apply lt_asym.
    + constructor; [assumption|]. now apply insert_Forall.
Qed.

Lemma sort_from_sorted todo : forall sorted,
  StronglySorted may_precede sorted -> StronglySorted may_precede (sort_from lt todo sorted).
Proof.
  induction todo as [|x todo IH]; intros sorted H; cbn; [assumption|].
  apply IH. now apply insert_sorted.
Qed.

(** A class of elements none of which precedes another. *)
Variable tied : A -> bool.
Hypothesis tied_level : forall x y, tied x = true -> tied y = true -> lt x y = false.

Lemma filter_none l : Forall (fun z => tied z = false) l -> List.filter tied l = [].
Proof. induction 1 as [|z l Hz _ IH]; cbn; [reflexivity|]. now rewrite Hz. Qed.

Lemma filter_step z l :
  List.filter tied (z :: l) = if tied z then z :: List.filter tied l else List.filter tied l.
Proof. reflexivity. Qed.

Lemma later_not_tied x z : tied x = true -> lt x z = true -> tied z = false.
Proof.
  intros Tx Hz. destruct (tied z) eqn:Tz; [|reflexivity].
  now rewrite (tied_level x z Tx Tz) in Hz.
Qed.

Lemma insert_stable x l :
  StronglySorted may_precede l ->
  List.filter tied (insert lt x l) = List.filter tied l ++ List.filter tied [x].
Proof.
  induction 1 as [|y l Hl IH Hy]; cbn [insert]; [reflexivity|].
  destruct (lt x y) eqn:E.
  - rewrite (filter_step x (y :: l)), (filter_step x []).
    destruct (tied x) eqn:Tx; [|now rewrite app_nil_r].
    rewrite (filter_none (y :: l)); [reflexivity|].
    constructor; [now apply (later_not_tied x y)|].
    eapply Forall_impl; [exact Hy|]. intros z Hz. apply (later_not_tied x z Tx).
    destruct (lt x z) eqn:Ez; [reflexivity|].
    unfold not_after in Hz. now rewrite (lt_cotrans x z y Ez Hz) in E.
  - rewrite !(filter_step y), IH. now destruct (tied y).
Qed.

Lemma sort_from_stable todo : forall sorted,
  StronglySorted may_precede sorted ->
  List.filter tied (sort_from lt todo sorted)
  = List.filter tied sorted ++ List.filter tied todo.
Proof.
  induction todo as [|x todo IH]; intros sorted H; cbn - [List.filter].
  - cbn. now rewrite app_nil_r.
  - rewrite IH by now apply insert_sorted.
    rewrite (insert_stable x sorted H), <- app_assoc. cbn. now destruct (tied x).
Qed.

End StableInsertion.

(** ** The order of Python numbers *)

Lemma number_ltb_fin_true p q : number_ltb (Nfin p) (Nfin q) = true <-> (p < q)%Q.
Proof.
  cbn. rewrite Qlt_alt. destruct (p ?= q)%Q; split; intros H; congruence.
Qed.

Lemma number_ltb_fin_false p q : number_ltb (Nfin p) (Nfin q) = false <-> (q <= p)%Q.
Proof.
  rewrite <- Bool.not_true_iff_false, number_ltb_fin_true. split.
  - apply Qnot_lt_le.
  - apply Qle_not_lt.
Qed.

Lemma number_ltb_irrefl x : number_ltb x x = false.
Proof.
  destruct x as [[|]|q]; try reflexivity.
  apply number_ltb_fin_false, Qle_refl.
Qed.

Lemma number_ltb_trans x y z :
  number_ltb x y = true -> number_ltb y z = true -> number_ltb x z = true.
Proof.
  destruct x as [[|]|p], y as [[|]|q], z as [[|]|r]; try (cbn; congruence).
  rewrite !number_ltb_fin_true. apply Qlt_trans.
Qed.

Lemma number_ltb_cotrans x y z :
  number_ltb x y = false -> number_ltb y z = false -> number_ltb x z = false.
Proof.
  destruct x as [[|]|p], y as [[|]|q], z as [[|]|r]; try (cbn; congruence).
  rewrite !number_ltb_fin_false. intros H1 H2. now apply Qle_trans with q.
Qed.

Lemma number_eqb_level x y n :
  number_eqb x n = true -> number_eqb y n = true -> number_ltb x y = false.
Proof.
  destruct x as [[|]|p], y as [[|]|q], n as [[|]|r]; try (cbn; congruence).
  cbn [number_eqb]. rewrite !Qeq_bool_iff, number_ltb_fin_false.
  intros H1 H2. rewrite H1, H2. apply Qle_refl.
Qed.

(** On numbers [<] and [==] are the order and the equality of their values. *)
Lemma py_lt_numbers a b x y :
  number_of a = Some x -> number_of b = Some y -> py_lt a b = ret (number_ltb x y).
Proof.
  intros Ha Hb. destruct a; try discriminate; cbn [py_lt]; now rewrite Ha, Hb.
Qed.

Lemma py_eq_level a b t :
  py_eq a t = true -> py_eq b t = true -> number_ltb (rank a) (rank b) = false.
Proof.
  unfold rank. intros Ha Hb.
  destruct (number_of t) as [n|] eqn:Ht.
  - assert (forall v, py_eq v t = true -> exists x, number_of v = Some x /\ number_eqb x n = true)
      as Hnum.
    { intros v Hv. destruct v; cbn [py_eq] in Hv.
      1: destruct t; discriminate.
      1-3: rewrite Ht in Hv; match type of Hv with
             | match ?o with _ => _ end = _ => destruct o eqn:E; [eauto|discriminate]
           end.
      all: destruct t; discriminate. }
    destruct (Hnum a Ha) as (x & -> & Hx), (Hnum b Hb) as (y & -> & Hy).
    now apply number_eqb_level with n.
  - assert (forall v, py_eq v t = true -> number_of v = None) as Hnone.
    { intros v Hv. destruct v; try reflexivity; cbn [py_eq] in Hv; rewrite Ht in Hv;
        match type of Hv with
        | match ?o with _ => _ end = _ => destruct o; discriminate
        end. }
    rewrite (Hnone a Ha), (Hnone b Hb). apply number_ltb_irrefl.
Qed.

(** ** [list.sort] *)

(** Whatever the keys are, a sort that returns has permuted its input. *)
Lemma insort_perm kx sorted : forall r,
  insort kx sorted = inr r -> Permutation (kx :: sorted) r.
Proof.
  induction sorted as [|ky sorted IH]; cbn; intros r H.
  - injection H as <-. reflexivity.
  - destruct (py_lt (fst kx) (fst ky)) as [e|[|]]; cbn in H; [discriminate| |].
    + injection H as <-. reflexivity.
    + destruct (insort kx sorted) as [e|rest]; cbn in H; [discriminate|].
      injection H as <-. rewrite perm_swap. constructor. now apply IH.
Qed.

Lemma sort_keyed_perm todo : forall sorted r,
  sort_keyed todo sorted = inr r -> Permutation (sorted ++ todo) r.
Proof.
  induction todo as [|kx todo IH]; cbn; intros sorted r H.
  - injection H as <-. now rewrite app_nil_r.
  - destruct (insort kx sorted) as [e|sorted'] eqn:E; cbn in H; [discriminate|].
    rewrite <- (IH _ _ H), <- (insort_perm _ _ _ E). symmetry. apply Permutation_middle.
Qed.

Lemma timestamp_key_of x t : timestamp_key x = inr t -> timestamp_of x = t.
Proof. unfold timestamp_of. now intros ->. Qed.

Lemma keys_of l : forall keys,
  map_result timestamp_key l = inr keys -> combine keys l = map decorate l.
Proof.
  induction l as [|x l IH]; cbn; intros keys H.
  - injection H as <-. reflexivity.
  - destruct (timestamp_key x) as [e|t] eqn:E; cbn in H; [discriminate|].
    destruct (map_result timestamp_key l) as [e|ts]; cbn in H; [discriminate|].
    injection H as <-. cbn. unfold decorate at 1.
    now rewrite (timestamp_key_of _ _ E), (IH ts eq_refl).
Qed.

Lemma snd_decorate l : map snd (map decorate l) = l.
Proof. rewrite map_map. apply map_id. Qed.

Lemma list_sort_perm l out :
  list_sort timestamp_key l = inr out -> Permutation l out.
Proof.
  unfold list_sort. intros H.
  destruct (map_result timestamp_key l) as [e|keys] eqn:K; cbn in H; [discriminate|].
  rewrite (keys_of _ _ K) in H.
  destruct (sort_keyed (map decorate l) []) as [e|sorted] eqn:S; cbn in H; [discriminate|].
  injection H as <-. apply sort_keyed_perm in S. cbn in S.
  rewrite <- (snd_decorate l) at 1. now apply Permutation_map.
Qed.

(** On number timestamps the sort never raises and is stable insertion by
    [earlier]. *)
Lemma py_lt_earlier x y :
  has_number_timestamp x -> has_number_timestamp y ->
  py_lt (timestamp_of x) (timestamp_of y) = ret (earlier x y).
Proof.
  intros (t & n & Ht & Hn) (t' & n' & Ht' & Hn'). unfold earlier, rank.
  rewrite (timestamp_key_of _ _ Ht), (timestamp_key_of _ _ Ht'), Hn, Hn'.
  now apply py_lt_numbers.
Qed.

Lemma number_keys l :
  Forall has_number_timestamp l -> map_result timestamp_key l = inr (map timestamp_of l).
Proof.
  induction 1 as [|x l (t & n & Ht & Hn) _ IH]; cbn; [reflexivity|].
  now rewrite IH, Ht, (timestamp_key_of _ _ Ht).
Qed.

Lemma insort_numbers x sorted :
  has_number_timestamp x -> Forall has_number_timestamp sorted ->
  insort (decorate x) (map decorate sorted) = ret (map decorate (insert earlier x sorted)).
Proof.
  intros Hx. induction 1 as [|y sorted Hy _ IH]; cbn; [reflexivity|].
  rewrite (py_lt_earlier x y Hx Hy). cbn.
  destruct (earlier x y); [reflexivity|]. now rewrite IH.
Qed.

Lemma sort_keyed_numbers todo : forall sorted,
  Forall has_number_timestamp todo -> Forall has_number_timestamp sorted ->
  sort_keyed (map decorate todo) (map decorate sorted)
  = ret (map decorate (sort_from earlier todo sorted)).
Proof.
  induction todo as [|x todo IH]; intros sorted Htodo Hsorted; cbn; [reflexivity|].
  apply Forall_cons in Htodo as [Hx Htodo].
  rewrite (insort_numbers x sorted Hx Hsorted). cbn.
  apply IH; [assumption|]. now apply insert_Forall.
Qed.

Lemma list_sort_numbers l :
  Forall has_number_timestamp l ->
  list_sort timestamp_key l = ret (sort_from earlier l []).
Proof.
  intros H. unfold list_sort. rewrite (number_keys l H). cbn.
  assert (combine (map timestamp_of l) l = map decorate l) as ->.
  { clear H. induction l as [|x l IH]; cbn; [reflexivity|]. now rewrite IH. }
  change (@nil (json * json)) with (map decorate []).
  rewrite (sort_keyed_numbers l [] H (List.Forall_nil _)). cbn.
  now rewrite snd_decorate.
Qed.

Lemma earlier_irrefl x : earlier x x = false.
Proof. apply number_ltb_irrefl. Qed.

Lemma earlier_trans x y z : earlier x y = true -> earlier y z = true -> earlier x z = true.
Proof. apply number_ltb_trans. Qed.

Lemma earlier_cotrans x y z :
  earlier x y = false -> earlier y z = false -> earlier x z = false.
Proof. apply number_ltb_cotrans. Qed.

(** Stable insertion by [earlier] sorts stably in the sense of the
    specification. *)
Lemma sort_from_earlier_stably_sorted l :
  Forall has_number_timestamp l -> stably_sorted l (sort_from earlier l []).
Proof.
  intros H. repeat split.
  - apply (sort_from_perm earlier l []).
  - assert (Forall has_number_timestamp (sort_from earlier l [])) as Hout.
    { eapply Permutation_Forall; [apply (sort_from_perm earlier l [])|exact H]. }
    pose proof (sort_from_sorted earlier earlier_irrefl earlier_trans earlier_cotrans
                  l [] (SSorted_nil _)) as Hs.
    unfold ascending. revert Hout Hs. generalize (sort_from earlier l []).
    induction 2 as [|x out Hs IH Hx]; [constructor|].
    apply Forall_cons in Hout as [Nx Nout].
    constructor; [now apply IH|].
    rewrite Forall_forall in *. intros y Hy.
    rewrite (py_lt_earlier y x (Nout y Hy) Nx). f_equal. now apply Hx.
  - intros t.
    apply (sort_from_stable earlier earlier_irrefl earlier_trans earlier_cotrans
             (fun x => py_eq (timestamp_of x) t)).
    + intros x y. apply py_eq_level.
    + constructor.
Qed.

(** ** Running the pipeline *)

Section Effects.

Context {A B : Type}.

Lemma bind_returned (m : io A) (k : A -> io B) w a w' :
  m w = (Returned a, w') -> io_bind m k w = k a w'.
Proof. unfold io_bind. now intros ->. Qed.

Lemma bind_raised (m : io A) (k : A -> io B) w e w' :
  m w = (Raised e, w') -> io_bind m k w = (Raised e, w').
Proof. unfold io_bind. now intros ->. Qed.

Lemma bind_returns (m : io A) (k : A -> io B) w b w'' :
  io_bind m k w = (Returned b, w'') ->
  exists a w', m w = (Returned a, w') /\ k a w' = (Returned b, w'').
Proof.
  unfold io_bind. destruct (m w) as [[a|e|c] w']; intros H; [eauto|discriminate..].
Qed.

Lemma bind_exits (m : io A) (k : A -> io B) w c w'' :
  io_bind m k w = (Exited c, w'') ->
  m w = (Exited c, w'') \/ exists a w', m w = (Returned a, w') /\ k a w' = (Exited c, w'').
Proof.
  unfold io_bind. destruct (m w) as [[a|e|c'] w']; intros H.
  - right. eauto.
  - discriminate.
  - injection H as -> ->. now left.
Qed.

Lemma lift_returns (r : result A) w a w' :
  lift r w = (Returned a, w') -> r = inr a /\ w' = w.
Proof. unfold lift. destruct r; intros [= <- <-]; auto. Qed.

Lemma lift_never_exits (r : result A) w c w' : lift r w <> (Exited c, w').
Proof. unfold lift. destruct r; discriminate. Qed.

End Effects.

Lemma exists_returns path w b w' :
  os_path_exists path w = (Returned b, w') ->
  b = bool_decide (is_Some (files w !! path)) /\ w' = record (Exists path) w.
Proof. unfold os_path_exists. intros [= <- <-]. auto. Qed.

Lemma load_returns path w v w' :
  load_json_file path w = (Returned v, w') ->
  readable_json w path = Some v /\ w' = record (Open_read path) w.
Proof.
  unfold load_json_file, try_except, open_and_load, readable_json, lift, raise.
  destruct (files w !! path) as [[|[|] ? [?|]]|]; intros [= <- <-] || discriminate; auto.
Qed.

Lemma load_readable path w v :
  readable_json w path = Some v ->
  load_json_file path w = (Returned v, record (Open_read path) w).
Proof.
  unfold load_json_file, try_except, open_and_load, readable_json.
  destruct (files w !! path) as [[|[|] ? [?|]]|]; intros [= <-] || discriminate; auto.
Qed.

Lemma load_never_exits path w c w' : load_json_file path w <> (Exited c, w').
Proof.
  unfold load_json_file, try_except, open_and_load, lift, raise.
  destruct (files w !! path) as [[|[|] ? [?|]]|]; discriminate.
Qed.

Lemma save_returns path data w u w' :
  save_json_file path data w = (Returned u, w') ->
  can_write w path = true /\
  exists readable writable,
    w' = store path (File readable writable (Json_text data)) (record (Open_write path) w).
Proof.
  unfold save_json_file, try_except, open_and_dump, can_write, lift, raise.
  destruct (files w !! path) as [[|? [|] ?]|]; [| | |destruct (may_create w)];
    intros [= <-] || discriminate; eauto.
Qed.

Lemma save_writable path data w :
  can_write w path = true ->
  exists readable writable,
    save_json_file path data w
    = (Returned tt,
       store path (File readable writable (Json_text data)) (record (Open_write path) w)).
Proof.
  unfold save_json_file, try_except, open_and_dump, can_write.
  destruct (files w !! path) as [[|? [|] ?]|]; [| | |destruct (may_create w)];
    discriminate || eauto.
Qed.

Lemma save_never_exits path data w c w' : save_json_file path data w <> (Exited c, w').
Proof.
  unfold save_json_file, try_except, open_and_dump, lift, raise.
  destruct (files w !! path) as [[|? [|] ?]|]; [| | |destruct (may_create w)]; discriminate.
Qed.

(** The value handed to [save_json_file] is the value [load_json_file]
    decodes from the same path afterwards, provided the file may be read.
    The text in between, which [json.dump] writes and [json.load] parses, is
    not part of the embedding. *)
Lemma save_then_load path data w w' :
  save_json_file path data w = (Returned tt, w') ->
  (forall readable writable content,
     files w !! path = Some (File readable writable content) -> readable = true) ->
  fst (load_json_file path w') = Returned data.
Proof.
  intros Hs Hr. revert Hs.
  unfold save_json_file, try_except, open_and_dump, lift, raise.
  destruct (files w !! path) as [[|readable [|] content]|] eqn:E;
    [| | |destruct (may_create w)]; intros [= <-] || discriminate.
  - rewrite (Hr _ _ _ eq_refl). erewrite load_readable; [reflexivity|].
    unfold readable_json, store. cbn. now rewrite lookup_insert_eq.
  - erewrite load_readable; [reflexivity|].
    unfold readable_json, store. cbn. now rewrite lookup_insert_eq.
Qed.

Lemma iter_len v l : iter v = inr l -> exists n, len v = inr n.
Proof. destruct v; try discriminate; cbn; eauto. Qed.

Lemma main_body_exits_with_1 w c w' : main_body w = (Exited c, w') -> c = 1.
Proof.
  unfold main_body. intros H.
  apply bind_exits in H as [H|(found1 & w1 & _ & H)]; [discriminate|].
  destruct (negb found1); [now injection H as <-|].
  apply bind_exits in H as [H|(found2 & w2 & _ & H)]; [discriminate|].
  destruct (negb found2); [now injection H as <-|].
  apply bind_exits in H as [H|(data1 & w3 & _ & H)]; [now apply load_never_exits in H|].
  apply bind_exits in H as [H|(data2 & w4 & _ & H)]; [now apply load_never_exits in H|].
  apply bind_exits in H as [H|(n1 & w5 & _ & H)]; [now apply lift_never_exits in H|].
  apply bind_exits in H as [H|(n2 & w6 & _ & H)]; [now apply lift_never_exits in H|].
  apply bind_exits in H as [H|(entries1 & w7 & _ & H)]; [now apply lift_never_exits in H|].
  apply bind_exits in H as [H|(tz & w8 & _ & H)]; [discriminate|].
  apply bind_exits in H as [H|(entries2 & w9 & _ & H)]; [now apply lift_never_exits in H|].
  apply bind_exits in H as [H|(out & w10 & _ & H)]; [now apply lift_never_exits in H|].
  now apply save_never_exits in H.
Qed.

(** A run that ends with status 0 has gone through every stage. *)
Lemma run_completed w :
  fst (run w) = 0 ->
  exists data1 data2 entries1 entries2 out readable writable,
    readable_json w data1_path = Some data1
    /\ readable_json w data2_path = Some data2
    /\ iter data1 = inr entries1
    /\ iter data2 = inr entries2
    /\ list_sort timestamp_key (merged (zone w) entries1 entries2) = inr out
    /\ can_write w output_path = true
    /\ snd (run w)
       = store output_path (File readable writable (Json_text (JList out)))
           (mk_world (files w) (may_create w) (zone w) (trace w ++ full_trace)).
Proof.
  unfold run, main, try_except.
  destruct (main_body w) as [[[]|e|c] w'] eqn:H; cbn; [intros _|discriminate|].
  2: { intros ->. now apply main_body_exits_with_1 in H. }
  unfold main_body in H.
  apply bind_returns in H as (found1 & w1 & [-> ->]%exists_returns & H).
  destruct (negb _); [discriminate|].
  apply bind_returns in H as (found2 & w2 & [-> ->]%exists_returns & H).
  destruct (negb _); [discriminate|].
  apply bind_returns in H as (data1 & w3 & [R1 ->]%load_returns & H).
  apply bind_returns in H as (data2 & w4 & [R2 ->]%load_returns & H).
  apply bind_returns in H as (n1 & w5 & [_ ->]%lift_returns & H).
  apply bind_returns in H as (n2 & w6 & [_ ->]%lift_returns & H).
  apply bind_returns in H as (entries1 & w7 & [I1 ->]%lift_returns & H).
  apply bind_returns in H as (tz & w8 & [= <- <-] & H).
  apply bind_returns in H as (entries2 & w9 & [I2 ->]%lift_returns & H).
  apply bind_returns in H as (out & w10 & [S ->]%lift_returns & H).
  apply save_returns in H as (W & readable & writable & ->).
  exists data1, data2, entries1, entries2, out, readable, writable.
  repeat split; try assumption.
  unfold store, record. cbn. now rewrite <- !app_assoc.
Qed.

Lemma exists_step {B} path (k : bool -> io B) w :
  io_bind (os_path_exists path) k w
  = k (bool_decide (is_Some (files w !! path))) (record (Exists path) w).
Proof. reflexivity. Qed.

Lemma lift_step {A B} (a : A) (k : A -> io B) w : io_bind (lift (inr a)) k w = k a w.
Proof. reflexivity. Qed.

Lemma zone_step {B} (k : timezone -> io B) w : io_bind local_zone k w = k (zone w) w.
Proof. reflexivity. Qed.

Lemma readable_exists w path v :
  readable_json w path = Some v -> bool_decide (is_Some (files w !! path)) = true.
Proof.
  unfold readable_json. destruct (files w !! path); [|discriminate].
  intros _. now apply bool_decide_eq_true.
Qed.

(** A run whose inputs can be read, iterated and sorted, and whose output
    can be written, ends with status 0 and leaves the sorted list in
    [output.json]. *)
Lemma run_completes w data1 data2 entries1 entries2 out :
  readable_json w data1_path = Some data1 ->
  readable_json w data2_path = Some data2 ->
  iter data1 = inr entries1 ->
  iter data2 = inr entries2 ->
  list_sort timestamp_key (merged (zone w) entries1 entries2) = inr out ->
  can_write w output_path = true ->
  exists readable writable,
    run w = (0, store output_path (File readable writable (Json_text (JList out)))
                  (mk_world (files w) (may_create w) (zone w) (trace w ++ full_trace))).
Proof.
  intros R1 R2 I1 I2 S W.
  destruct (iter_len _ _ I1) as [n1 L1], (iter_len _ _ I2) as [n2 L2].
  set (w2 := record (Exists data2_path) (record (Exists data1_path) w)).
  set (w3 := record (Open_read data1_path) w2).
  set (w4 := record (Open_read data2_path) w3).
  destruct (save_writable output_path (JList out) w4 W) as (readable & writable & Hsave).
  exists readable, writable.
  unfold run, main, try_except, main_body.
  rewrite exists_step, (readable_exists _ _ _ R1). cbn [negb].
  rewrite exists_step.
  change (files (record (Exists data1_path) w)) with (files w).
  rewrite (readable_exists _ _ _ R2). cbn [negb].
  rewrite (bind_returned _ _ _ _ _ (load_readable data1_path w2 data1 R1)).
  rewrite (bind_returned _ _ _ _ _ (load_readable data2_path w3 data2 R2)).
  fold w4. rewrite L1, L2, I1, !lift_step, zone_step, I2, lift_step.
  change (zone w4) with (zone w). fold (merged (zone w) entries1 entries2).
  rewrite S, lift_step, Hsave. cbn [exit_code]. f_equal.
  unfold w4, w3, w2, store, record. cbn. now rewrite <- !app_assoc.
Qed.

(** C7: when [data-1.json] or [data-2.json] does not exist, the run ends
    with status 1 after the existence checks alone: no file has been opened
    for reading or writing, and the files, [output.json] among them, are
    what they were. *)
Theorem missing_input_aborts (w : world) :
  files w !! data1_path = None \/ files w !! data2_path = None ->
  fst (run w) = 1
  /\ files (snd (run w)) = files w
  /\ (trace (snd (run w)) = trace w ++ [Exists data1_path]
      \/ trace (snd (run w)) = trace w ++ [Exists data1_path; Exists data2_path]).
Proof.
  intros H. unfold run, main, try_except, main_body.
  rewrite exists_step.
  destruct (files w !! data1_path) as [n1|] eqn:E1.
  - destruct H as [H|H]; [discriminate|].
    rewrite bool_decide_eq_true_2 by eauto. cbn [negb].
    rewrite exists_step.
    change (files (record (Exists data1_path) w)) with (files w).
    rewrite H, bool_decide_eq_false_2 by (intros [? [=]]). cbn.
    repeat split. right. now rewrite <- app_assoc.
  - rewrite bool_decide_eq_false_2 by (intros [? [=]]). cbn.
    repeat split. now left.
Qed.

Lemma missing_input_aborts_witness :
  fst (run incomplete_world) = 1
  /\ files (snd (run incomplete_world)) = files incomplete_world
  /\ (trace (snd (run incomplete_world)) = trace incomplete_world ++ [Exists data1_path]
      \/ trace (snd (run incomplete_world))
         = trace incomplete_world ++ [Exists data1_path; Exists data2_path]).
Proof. apply (missing_input_aborts incomplete_world). right. reflexivity. Defined.

(** ** The entries of the output *)

Lemma truthy_not_None v : truthy v = true -> v <> JNull.
Proof. now intros H ->. Qed.

Lemma convert_data1_entry_returns tz entry x :
  convert_data1_entry tz entry = inr x ->
  exists kvs dt,
    entry = JDict kvs
    /\ strptime (field "timestamp" kvs) = inr dt
    /\ truthy (field "id" kvs) = true
    /\ field "value" kvs <> JNull
    /\ x = unified (field "id" kvs) (field "value" kvs) (JInt (timestamp tz dt * 1000)).
Proof.
  destruct entry as [| | | | | |kvs]; try discriminate.
  rewrite convert_data1_entry_unfold. intros H. exists kvs.
  destruct (truthy (field "timestamp" kvs)); [|discriminate].
  destruct (strptime (field "timestamp" kvs)) as [e|dt]; [discriminate|]. cbn [bind] in H.
  destruct (truthy (field "id" kvs)); [|discriminate].
  destruct (is_None (field "value" kvs)) eqn:N; [discriminate|].
  injection H as <-. exists dt. repeat split.
  intros E. now rewrite E in N.
Qed.

Lemma convert_data2_entry_returns entry x :
  convert_data2_entry entry = inr x ->
  exists kvs,
    entry = JDict kvs
    /\ truthy (field "deviceId" kvs) = true
    /\ field "reading" kvs <> JNull
    /\ field "time" kvs <> JNull
    /\ x = unified (field "deviceId" kvs) (field "reading" kvs) (field "time" kvs).
Proof.
  destruct entry as [| | | | | |kvs]; try discriminate.
  rewrite convert_data2_entry_unfold. intros H. exists kvs.
  destruct (truthy (field "deviceId" kvs)); [|discriminate].
  destruct (is_None (field "reading" kvs)) eqn:N; [discriminate|].
  destruct (is_None (field "time" kvs)) eqn:N'; [discriminate|].
  injection H as <-. repeat split; intros E; [now rewrite E in N | now rewrite E in N'].
Qed.

Lemma conversions_In f data x :
  In x (conversions f data) <-> exists entry, In entry data /\ f entry = inr x.
Proof.
  induction data as [|e data IH]; cbn.
  - split; [tauto|now intros (? & [] & _)].
  - destruct (f e) as [err|y] eqn:E; cbn; rewrite IH; split.
    + intros (entry & ? & ?). eauto.
    + intros (entry & [<-|?] & Hf); [congruence|eauto].
    + intros [<-|(entry & ? & ?)]; eauto.
    + intros (entry & [<-|?] & Hf); [left; congruence|eauto].
Qed.

Lemma merged_In tz entries1 entries2 x :
  In x (merged tz entries1 entries2) <->
  from_data1 tz entries1 x \/ from_data2 entries2 x.
Proof.
  unfold merged, from_data1, from_data2.
  now rewrite in_app_iff, !convert_dataset_conversions, !conversions_In.
Qed.

Lemma from_data1_integer tz entries1 x :
  from_data1 tz entries1 x -> well_formed x /\ exists ms, timestamp_of x = JInt ms.
Proof.
  intros (entry & _ & (kvs & dt & _ & _ & Hid & Hv & ->)%convert_data1_entry_returns).
  split; [|now eexists].
  eexists _, _, _. repeat split; [now apply truthy_not_None|assumption|discriminate].
Qed.

Lemma from_data2_time entries2 x :
  from_data2 entries2 x ->
  well_formed x /\ exists entry, In entry entries2 /\ get entry "time" = inr (timestamp_of x).
Proof.
  intros (entry & Hin & (kvs & -> & Hid & Hr & Ht & ->)%convert_data2_entry_returns).
  split; [|now exists (JDict kvs)].
  eexists _, _, _. repeat split; [now apply truthy_not_None|assumption..].
Qed.

Lemma written_store path readable writable v w :
  written_json (store path (File readable writable (Json_text v)) w) path = Some v.
Proof. unfold written_json, store. cbn. now rewrite lookup_insert_eq. Qed.

Lemma from_data1_number tz entries1 x : from_data1 tz entries1 x -> has_number_timestamp x.
Proof.
  intros (entry & _ & (kvs & dt & _ & _ & _ & _ & ->)%convert_data1_entry_returns).
  now eexists _, _.
Qed.

Lemma merged_numbers tz entries1 entries2 :
  Forall has_number_timestamp (convert_dataset entries2 convert_data2_entry) ->
  Forall has_number_timestamp (merged tz entries1 entries2).
Proof.
  intros H. unfold merged. apply Forall_app. split; [|assumption].
  apply List.Forall_forall. intros x Hx. apply (from_data1_number tz entries1).
  rewrite convert_dataset_conversions, conversions_In in Hx. exact Hx.
Qed.






(** * Further properties *)

(** ** What a run does to its environment *)

Lemma load_world path w : snd (load_json_file path w) = record (Open_read path) w.
Proof.
  unfold load_json_file, try_except, open_and_load, lift, raise.
  now destruct (files w !! path) as [[|[|] ? [?|]]|].
Qed.

Lemma save_raises path data w e w' :
  save_json_file path data w = (Raised e, w') -> w' = record (Open_write path) w.
Proof.
  unfold save_json_file, try_except, open_and_dump, lift, raise.
  destruct (files w !! path) as [[|? [|] ?]|]; [| | |destruct (may_create w)];
    (intros [= _ <-]; reflexivity) || discriminate.
Qed.

Lemma after_calls_record w w' calls ev :
  after_calls w w' calls -> after_calls w (record ev w') (calls ++ [ev]).
Proof.
  intros (? & ? & ? & Ht). unfold after_calls, record. cbn.
  now rewrite Ht, app_assoc.
Qed.

Lemma after_calls_start w : after_calls w w [].
Proof. unfold after_calls. now rewrite app_nil_r. Qed.

(** When the body of [main] does not return, it stopped after a prefix of
    the file-system calls of a full run, before any file was written. *)
Lemma main_body_stops w o w' :
  main_body w = (o, w') -> (forall u, o <> Returned u) ->
  exists calls, after_calls w w' calls /\ calls `prefix_of` full_trace.
Proof.
  unfold main_body. intros H Hstop.
  pose proof (after_calls_start w) as A0.
  rewrite exists_step in H. apply (after_calls_record _ _ _ (Exists data1_path)) in A0.
  destruct (negb _).
  { injection H as <- <-. eexists. split; [exact A0|]. now eexists. }
  rewrite exists_step in H. apply (after_calls_record _ _ _ (Exists data2_path)) in A0.
  destruct (negb _).
  { injection H as <- <-. eexists. split; [exact A0|]. now eexists. }
  set (w2 := record (Exists data2_path) (record (Exists data1_path) w)) in *.
  apply (after_calls_record _ _ _ (Open_read data1_path)) in A0.
  rewrite <- (load_world data1_path w2) in A0. unfold io_bind at 1 in H.
  destruct (load_json_file data1_path w2) as [[data1|e|c] w3]; cbn [snd] in A0;
    [|injection H as <- <-; eexists; split; [exact A0|now eexists]..].
  apply (after_calls_record _ _ _ (Open_read data2_path)) in A0.
  rewrite <- (load_world data2_path w3) in A0. unfold io_bind at 1 in H.
  destruct (load_json_file data2_path w3) as [[data2|e|c] w4]; cbn [snd] in A0;
    [|injection H as <- <-; eexists; split; [exact A0|now eexists]..].
  unfold io_bind at 1 in H. destruct (len data1) as [e|n1]; cbn [lift] in H;
    [injection H as <- <-; eexists; split; [exact A0|now eexists]|].
  unfold io_bind at 1 in H. destruct (len data2) as [e|n2]; cbn [lift] in H;
    [injection H as <- <-; eexists; split; [exact A0|now eexists]|].
  unfold io_bind at 1 in H. destruct (iter data1) as [e|entries1]; cbn [lift] in H;
    [injection H as <- <-; eexists; split; [exact A0|now eexists]|].
  rewrite zone_step in H.
  unfold io_bind at 1 in H. destruct (iter data2) as [e|entries2]; cbn [lift] in H;
    [injection H as <- <-; eexists; split; [exact A0|now eexists]|].
  unfold io_bind at 1 in H. destruct (list_sort _ _) as [e|out]; cbn [lift] in H;
    [injection H as <- <-; eexists; split; [exact A0|now eexists]|].
  destruct o as [u|e|c].
  - now contradiction (Hstop u).
  - apply save_raises in H as ->.
    apply (after_calls_record _ _ _ (Open_write output_path)) in A0.
    eexists. split; [exact A0|]. now exists [].
  - now apply save_never_exits in H.
Qed.

Lemma run_stopped w :
  fst (run w) <> 0 ->
  fst (run w) = 1
  /\ exists calls, after_calls w (snd (run w)) calls /\ calls `prefix_of` full_trace.
Proof.
  unfold run, main, try_except.
  destruct (main_body w) as [[[]|e|c] w'] eqn:H; cbn [fst snd exit_code sys_exit].
  - intros H0. now contradiction H0.
  - intros _. split; [reflexivity|]. now apply (main_body_stops w _ _ H).
  - intros _. split; [now apply main_body_exits_with_1 in H|].
    now apply (main_body_stops w _ _ H).
Qed.

(** The process ends with status 0 or 1, and with 0 exactly when both
    inputs can be read and iterated, the merged conversions can be sorted
    and [output.json] can be written. *)
Theorem run_succeeds_iff (w : world) :
  (fst (run w) = 0 \/ fst (run w) = 1)
  /\ (fst (run w) = 0 <->
      exists data1 data2 entries1 entries2 out,
        readable_json w data1_path = Some data1
        /\ readable_json w data2_path = Some data2
        /\ iter data1 = inr entries1
        /\ iter data2 = inr entries2
        /\ list_sort timestamp_key
             (convert_dataset entries1 (convert_data1_entry (zone w))
              ++ convert_dataset entries2 convert_data2_entry) = inr out
        /\ can_write w output_path = true).
Proof.
  split.
  - destruct (Z.eq_dec (fst (run w)) 0) as [H|H]; [now left|right].
    now apply run_stopped.
  - split.
    + intros H. destruct (run_completed w H)
        as (data1 & data2 & entries1 & entries2 & out & _ & _ & ? & ? & ? & ? & ? & ? & _).
      now exists data1, data2, entries1, entries2, out.
    + intros (data1 & data2 & entries1 & entries2 & out & R1 & R2 & I1 & I2 & S & W).
      destruct (run_completes w _ _ _ _ _ R1 R2 I1 I2 S W) as (? & ? & ->). reflexivity.
Qed.


Lemma run_succeeds_iff_witness : fst (run sample_world) = 0.
Proof.
  apply (proj2 (proj2 (run_succeeds_iff sample_world))).
  exists (JList [docstring_data1]), (JList [docstring_data2]),
         [docstring_data1], [docstring_data2],
         [unified (JStr "sensor-1") (JFloat (Ffinite false 47 (-1))) (JInt docstring_ms);
          unified (JStr "device-2") (JFloat (Ffinite false 457 (-1))) (JInt 1685624400000)].
  repeat split; reflexivity.
Defined.


(** ** Sorting values of several kinds *)

Lemma py_lt_same_kind a b r : py_lt a b = inr r -> kind_of a = kind_of b.
Proof. destruct a, b; cbn; intros H; try discriminate H; reflexivity. Qed.

Lemma insort_same_kinds kx sorted r :
  insort kx sorted = inr r -> same_kinds sorted -> same_kinds r.
Proof.
  intros H K.
  assert (forall ky, In ky sorted -> kind_of (fst ky) = kind_of (fst kx)) as Hx.
  { destruct sorted as [|k0 sorted]; [contradiction|]. cbn in H.
    destruct (py_lt (fst kx) (fst k0)) as [e|less] eqn:L; [discriminate|].
    apply py_lt_same_kind in L. intros ky Hky. rewrite L. apply K; [assumption|now left]. }
  apply insort_perm in H. intros a b Ha Hb.
  apply (Permutation_in _ (Permutation_sym H)) in Ha, Hb.
  destruct Ha as [<-|Ha], Hb as [<-|Hb]; auto.
  - symmetry. auto.
Qed.

Lemma sort_keyed_same_kinds todo : forall sorted r,
  sort_keyed todo sorted = inr r -> same_kinds sorted -> same_kinds r.
Proof.
  induction todo as [|kx todo IH]; cbn; intros sorted r H K.
  - now injection H as <-.
  - destruct (insort kx sorted) as [e|sorted'] eqn:E; cbn in H; [discriminate|].
    apply (IH _ _ H). now apply (insort_same_kinds _ _ _ E).
Qed.

(** A sort that returns has found the timestamps all of one kind. *)
Lemma list_sort_same_kinds l out :
  list_sort timestamp_key l = inr out ->
  forall x y, In x l -> In y l -> kind_of (timestamp_of x) = kind_of (timestamp_of y).
Proof.
  unfold list_sort. intros H.
  destruct (map_result timestamp_key l) as [e|keys] eqn:K; cbn in H; [discriminate|].
  rewrite (keys_of _ _ K) in H.
  destruct (sort_keyed (map decorate l) []) as [e|sorted] eqn:S; cbn in H; [discriminate|].
  pose proof (sort_keyed_perm _ _ _ S) as P. cbn in P.
  apply sort_keyed_same_kinds in S; [|intros ? ? []].
  intros x y Hx Hy.
  apply (S (decorate x) (decorate y));
    apply (Permutation_in _ P); now apply in_map.
Qed.

Lemma readable_json_unique w path v v' :
  readable_json w path = Some v -> readable_json w path = Some v' -> v = v'.
Proof. congruence. Qed.

(** The run aborts when two converted entries carry timestamps of different
    JSON kinds, say a number and a string: [<] raises between them, the
    status is 1 and no file is written. *)
Theorem mixed_timestamps_abort (w : world) (data1 data2 : json)
  (entries1 entries2 : list json) (x y : json) :
  readable_json w data1_path = Some data1 ->
  readable_json w data2_path = Some data2 ->
  iter data1 = inr entries1 ->
  iter data2 = inr entries2 ->
  In x (convert_dataset entries1 (convert_data1_entry (zone w))
        ++ convert_dataset entries2 convert_data2_entry) ->
  In y (convert_dataset entries1 (convert_data1_entry (zone w))
        ++ convert_dataset entries2 convert_data2_entry) ->
  kind_of (timestamp_of x) <> kind_of (timestamp_of y) ->
  fst (run w) = 1 /\ files (snd (run w)) = files w.
Proof.
  intros R1 R2 I1 I2 Hx Hy K.
  assert (fst (run w) <> 0) as H.
  { intros H. destruct (run_completed w H)
      as (d1 & d2 & e1 & e2 & out & ? & ? & R1' & R2' & I1' & I2' & S & _).
    rewrite (readable_json_unique _ _ _ _ R1' R1) in I1'.
    rewrite (readable_json_unique _ _ _ _ R2' R2) in I2'.
    assert (e1 = entries1) as -> by congruence.
    assert (e2 = entries2) as -> by congruence.
    apply K. now apply (list_sort_same_kinds _ _ S). }
  destruct (run_stopped w H) as (E & calls & (Hf & _) & _). now split.
Qed.

Lemma mixed_timestamps_abort_witness :
  fst (run mixed_world) = 1 /\ files (snd (run mixed_world)) = files mixed_world.
Proof.
  apply (mixed_timestamps_abort mixed_world (JList [docstring_data1])
           (JList [text_time_entry]) [docstring_data1] [text_time_entry]
           (unified (JStr "sensor-1") (JFloat (Ffinite false 47 (-1))) (JInt docstring_ms))
           (unified (JStr "device-2") (JInt 1) (JStr "2023-06-01T13:00:00Z")));
    try reflexivity.
  - now left.
  - right. now left.
  - discriminate.
Defined.

(** ** Small and odd inputs *)

Lemma merged_has_timestamp tz entries1 entries2 x :
  In x (merged tz entries1 entries2) -> timestamp_key x = inr (timestamp_of x).
Proof.
  intros [H|H]%merged_In.
  - destruct H as (entry & _ & (kvs & dt & _ & _ & _ & _ & ->)%convert_data1_entry_returns).
    reflexivity.
  - destruct H as (entry & _ & (kvs & _ & _ & _ & _ & ->)%convert_data2_entry_returns).
    reflexivity.
Qed.

(** With at most one converted entry nothing is compared: the run succeeds
    whatever the timestamp is, and writes the merged list as it is. *)
Theorem short_list_needs_no_order (w : world) (data1 data2 : json)
  (entries1 entries2 : list json) :
  readable_json w data1_path = Some data1 ->
  readable_json w data2_path = Some data2 ->
  iter data1 = inr entries1 ->
  iter data2 = inr entries2 ->
  can_write w output_path = true ->
  (length (convert_dataset entries1 (convert_data1_entry (zone w))
           ++ convert_dataset entries2 convert_data2_entry) <= 1)%nat ->
  fst (run w) = 0
  /\ written_json (snd (run w)) output_path
     = Some (JList (convert_dataset entries1 (convert_data1_entry (zone w))
                    ++ convert_dataset entries2 convert_data2_entry)).
Proof.
  intros R1 R2 I1 I2 W L. fold (merged (zone w) entries1 entries2) in *.
  assert (list_sort timestamp_key (merged (zone w) entries1 entries2)
          = inr (merged (zone w) entries1 entries2)) as S.
  { pose proof (merged_has_timestamp (zone w) entries1 entries2) as K.
    destruct (merged (zone w) entries1 entries2) as [|x [|y l]]; [reflexivity| |cbn in L; lia].
    unfold list_sort. cbn. rewrite (K x) by now left. reflexivity. }
  destruct (run_completes w _ _ _ _ _ R1 R2 I1 I2 S W) as (readable & writable & ->).
  split; [reflexivity|apply written_store].
Qed.

Lemma short_list_needs_no_order_witness :
  fst (run lonely_world) = 0
  /\ written_json (snd (run lonely_world)) output_path
     = Some (JList (convert_dataset [] (convert_data1_entry (zone lonely_world))
                    ++ convert_dataset [object_time_entry] convert_data2_entry)).
Proof.
  apply (short_list_needs_no_order lonely_world (JList []) (JList [object_time_entry]));
    reflexivity.
Defined.

(** ** Running the pipeline again *)

Lemma save_result path data w :
  can_write w path = true ->
  save_json_file path data w
  = (Returned tt, store path (saved_file w path data) (record (Open_write path) w)).
Proof.
  unfold save_json_file, try_except, open_and_dump, can_write, saved_file.
  destruct (files w !! path) as [[|? [|] ?]|]; [| | |destruct (may_create w)];
    discriminate || reflexivity.
Qed.

Lemma run_result w data1 data2 entries1 entries2 out :
  readable_json w data1_path = Some data1 ->
  readable_json w data2_path = Some data2 ->
  iter data1 = inr entries1 ->
  iter data2 = inr entries2 ->
  list_sort timestamp_key (merged (zone w) entries1 entries2) = inr out ->
  can_write w output_path = true ->
  run w = (0, store output_path (saved_file w output_path (JList out))
                (mk_world (files w) (may_create w) (zone w) (trace w ++ full_trace))).
Proof.
  intros R1 R2 I1 I2 S W.
  destruct (iter_len _ _ I1) as [n1 L1], (iter_len _ _ I2) as [n2 L2].
  set (w2 := record (Exists data2_path) (record (Exists data1_path) w)).
  set (w3 := record (Open_read data1_path) w2).
  set (w4 := record (Open_read data2_path) w3).
  unfold run, main, try_except, main_body.
  rewrite exists_step, (readable_exists _ _ _ R1). cbn [negb].
  rewrite exists_step.
  change (files (record (Exists data1_path) w)) with (files w).
  rewrite (readable_exists _ _ _ R2). cbn [negb].
  rewrite (bind_returned _ _ _ _ _ (load_readable data1_path w2 data1 R1)).
  rewrite (bind_returned _ _ _ _ _ (load_readable data2_path w3 data2 R2)).
  fold w4. rewrite L1, L2, I1, !lift_step, zone_step, I2, lift_step.
  change (zone w4) with (zone w). fold (merged (zone w) entries1 entries2).
  rewrite S, lift_step, (save_result output_path (JList out) w4 W). cbn [exit_code].
  f_equal. unfold w4, w3, w2, store, record, saved_file. cbn.
  now rewrite <- !app_assoc.
Qed.

Lemma output_is_not_an_input :
  data1_path <> output_path /\ data2_path <> output_path.
Proof. split; discriminate. Qed.

(** A second run, started where a successful run ended, succeeds as well
    and leaves every file exactly as the first run left it. *)
Theorem second_run_changes_nothing (w : world) :
  fst (run w) = 0 ->
  fst (run (snd (run w))) = 0
  /\ files (snd (run (snd (run w)))) = files (snd (run w)).
Proof.
  intros H. destruct (run_completed w H)
    as (data1 & data2 & entries1 & entries2 & out & _ & _ & R1 & R2 & I1 & I2 & S & W & _).
  rewrite (run_result w _ _ _ _ _ R1 R2 I1 I2 S W). cbn [snd].
  remember (store _ _ _) as w' eqn:Ew'.
  destruct output_is_not_an_input as [N1 N2].
  assert (files w' !! output_path = Some (saved_file w output_path (JList out))) as Hout.
  { rewrite Ew'. unfold store. cbn. now rewrite lookup_insert_eq. }
  assert (readable_json w' data1_path = Some data1) as R1'.
  { rewrite Ew'. unfold readable_json, store. cbn. now rewrite lookup_insert_ne. }
  assert (readable_json w' data2_path = Some data2) as R2'.
  { rewrite Ew'. unfold readable_json, store. cbn. now rewrite lookup_insert_ne. }
  assert (zone w' = zone w) as Z by now rewrite Ew'.
  assert (saved_file w' output_path (JList out) = saved_file w output_path (JList out))
    as Hsame.
  { unfold saved_file at 1. rewrite Hout. unfold saved_file.
    now destruct (files w !! output_path) as [[|]|]. }
  assert (can_write w' output_path = true) as W'.
  { unfold can_write. rewrite Hout. unfold saved_file.
    now destruct (files w !! output_path) as [[|]|]. }
  rewrite <- Z in S.
  rewrite (run_result w' _ _ _ _ out R1' R2' I1 I2 S W'). split; [reflexivity|].
  cbn [snd]. unfold store. cbn [files]. rewrite Hsame. now apply insert_id.
Qed.

Lemma second_run_changes_nothing_witness :
  fst (run (snd (run sample_world))) = 0
  /\ files (snd (run (snd (run sample_world)))) = files (snd (run sample_world)).
Proof. apply (second_run_changes_nothing sample_world). reflexivity. Defined.

(** ** What reaches the output *)

(** Whatever the timestamps are, a run that ends with status 0 has written
    a rearrangement of the merged conversions: sorting drops, repeats and
    alters nothing, and the timestamps it met were all of one JSON kind. *)
Theorem completed_run_permutes (w : world) (data1 data2 : json)
  (entries1 entries2 : list json) :
  readable_json w data1_path = Some data1 ->
  readable_json w data2_path = Some data2 ->
  iter data1 = inr entries1 ->
  iter data2 = inr entries2 ->
  fst (run w) = 0 ->
  exists out,
    written_json (snd (run w)) output_path = Some (JList out)
    /\ Permutation (convert_dataset entries1 (convert_data1_entry (zone w))
                    ++ convert_dataset entries2 convert_data2_entry) out
    /\ length out = (length (convert_dataset entries1 (convert_data1_entry (zone w)))
                     + length (convert_dataset entries2 convert_data2_entry))%nat
    /\ forall x y, In x out -> In y out ->
                   kind_of (timestamp_of x) = kind_of (timestamp_of y).
Proof.
  intros R1 R2 I1 I2 H. destruct (run_completed w H)
    as (d1 & d2 & e1 & e2 & out & readable & writable & R1' & R2' & I1' & I2' & S & _ & ->).
  rewrite (readable_json_unique _ _ _ _ R1' R1) in I1'.
  rewrite (readable_json_unique _ _ _ _ R2' R2) in I2'.
  assert (e1 = entries1) as -> by congruence.
  assert (e2 = entries2) as -> by congruence.
  exists out. pose proof (list_sort_perm _ _ S) as P. unfold merged in P.
  split; [apply written_store|]. split; [exact P|]. split.
  - now rewrite <- (Permutation_length P), length_app.
  - intros x y Hx Hy. apply (list_sort_same_kinds _ _ S);
      now apply (Permutation_in _ (Permutation_sym P)).
Qed.

Lemma completed_run_permutes_witness :
  exists out,
    written_json (snd (run sample_world)) output_path = Some (JList out)
    /\ Permutation (convert_dataset [docstring_data1] (convert_data1_entry (zone sample_world))
                    ++ convert_dataset [docstring_data2] convert_data2_entry) out
    /\ length out
       = (length (convert_dataset [docstring_data1]
                    (convert_data1_entry (zone sample_world)))
          + length (convert_dataset [docstring_data2] convert_data2_entry))%nat
    /\ forall x y, In x out -> In y out ->
                   kind_of (timestamp_of x) = kind_of (timestamp_of y).
Proof.
  apply (completed_run_permutes sample_world (JList [docstring_data1])
           (JList [docstring_data2])); reflexivity.
Defined.

(** ** Entries and documents of the wrong shape *)

Lemma conversions_all_fail f data :
  Forall (fun entry => exists e, f entry = inl e) data -> conversions f data = [].
Proof.
  induction 1 as [|entry data [e He] _ IH]; cbn; [reflexivity|]. now rewrite He.
Qed.

Lemma get_not_object entry key :
  kind_of entry <> Object ->
  get entry key = raise (AttributeError (Other "object has no attribute 'get'")).
Proof. destruct entry; intros H; try reflexivity. now contradiction H. Qed.

(** An entry that is not a JSON object makes both converters raise
    [AttributeError], at the first [entry.get]; [convert_dataset] skips it
    like any other failure. *)
Theorem non_object_entry_skipped (tz : timezone) (entry : json) (before after : list json) :
  kind_of entry <> Object ->
  convert_data1_entry tz entry
    = raise (AttributeError (Other "object has no attribute 'get'"))
  /\ convert_data2_entry entry
    = raise (AttributeError (Other "object has no attribute 'get'"))
  /\ convert_dataset (before ++ entry :: after) (convert_data1_entry tz)
    = convert_dataset (before ++ after) (convert_data1_entry tz)
  /\ convert_dataset (before ++ entry :: after) convert_data2_entry
    = convert_dataset (before ++ after) convert_data2_entry.
Proof.
  intros K.
  assert (convert_data1_entry tz entry
          = raise (AttributeError (Other "object has no attribute 'get'"))) as H1.
  { unfold convert_data1_entry. now rewrite (get_not_object _ _ K). }
  assert (convert_data2_entry entry
          = raise (AttributeError (Other "object has no attribute 'get'"))) as H2.
  { unfold convert_data2_entry. now rewrite (get_not_object _ _ K). }
  repeat split; try assumption.
  - rewrite !convert_dataset_conversions, !conversions_app. cbn. now rewrite H1.
  - rewrite !convert_dataset_conversions, !conversions_app. cbn. now rewrite H2.
Qed.

Lemma non_object_entry_skipped_witness :
  convert_dataset ([docstring_data1] ++ JStr "sensor-3" :: []) (convert_data1_entry UTC)
  = convert_dataset ([docstring_data1] ++ []) (convert_data1_entry UTC).
Proof.
  apply (proj1 (proj2 (proj2
    (non_object_entry_skipped UTC (JStr "sensor-3") [docstring_data1] []
       ltac:(discriminate))))).
Defined.

Lemma iter_items_not_objects v entries :
  iter v = inr entries -> kind_of v <> Array ->
  Forall (fun entry => kind_of entry <> Object) entries.
Proof.
  destruct v; try discriminate; intros [= <-] K.
  - apply List.Forall_forall. intros x (c & <- & _)%in_map_iff. discriminate.
  - now contradiction K.
  - apply List.Forall_forall. intros x (kv & <- & _)%in_map_iff. discriminate.
Qed.

(** An input document that is a JSON object or a string is iterated, over
    its keys or its characters, and contributes no entry at all. *)
Theorem non_array_document_is_empty (tz : timezone) (data : json) (entries : list json) :
  kind_of data <> Array ->
  iter data = inr entries ->
  convert_dataset entries (convert_data1_entry tz) = []
  /\ convert_dataset entries convert_data2_entry = [].
Proof.
  intros K I. pose proof (iter_items_not_objects _ _ I K) as N.
  rewrite !convert_dataset_conversions. split; apply conversions_all_fail;
    (eapply Forall_impl; [exact N|]); intros entry Ke; cbn beta;
    eexists.
  - unfold convert_data1_entry. now rewrite (get_not_object _ _ Ke).
  - unfold convert_data2_entry. now rewrite (get_not_object _ _ Ke).
Qed.

Lemma non_array_document_is_empty_witness :
  convert_dataset [JStr "id"; JStr "value"] (convert_data1_entry UTC) = []
  /\ convert_dataset [JStr "id"; JStr "value"] convert_data2_entry = [].
Proof.
  apply (non_array_document_is_empty UTC
           (JDict [("id", JStr "sensor-1"); ("value", JInt 3)])).
  - discriminate.
  - reflexivity.
Defined.

(** An input document that is a number, a boolean or [null] has no length:
    the run ends with status 1 once both files are read, and writes
    nothing. *)
Theorem scalar_document_aborts (w : world) (data1 data2 : json) :
  readable_json w data1_path = Some data1 ->
  readable_json w data2_path = Some data2 ->
  kind_of data1 = Null \/ kind_of data1 = Number
  \/ kind_of data2 = Null \/ kind_of data2 = Number ->
  fst (run w) = 1
  /\ files (snd (run w)) = files w
  /\ trace (snd (run w))
     = trace w ++ [Exists data1_path; Exists data2_path;
                   Open_read data1_path; Open_read data2_path].
Proof.
  intros R1 R2 K.
  assert (exists e, (n1 <- len data1 ;; len data2) = inl e) as [e L].
  { destruct K as [K|[K|[K|K]]].
    - destruct data1; try discriminate K; cbn; eauto.
    - destruct data1; try discriminate K; cbn; eauto.
    - destruct (len data1); cbn; [eauto|]. destruct data2; try discriminate K; cbn; eauto.
    - destruct (len data1); cbn; [eauto|]. destruct data2; try discriminate K; cbn; eauto. }
  set (w2 := record (Exists data2_path) (record (Exists data1_path) w)).
  set (w3 := record (Open_read data1_path) w2).
  set (w4 := record (Open_read data2_path) w3).
  assert (run w = (1, w4)) as ->.
  { unfold run, main, try_except, main_body.
    rewrite exists_step, (readable_exists _ _ _ R1). cbn [negb].
    rewrite exists_step.
    change (files (record (Exists data1_path) w)) with (files w).
    rewrite (readable_exists _ _ _ R2). cbn [negb].
    rewrite (bind_returned _ _ _ _ _ (load_readable data1_path w2 data1 R1)).
    rewrite (bind_returned _ _ _ _ _ (load_readable data2_path w3 data2 R2)).
    fold w4. destruct (len data1) as [e1|n1]; cbn [bind] in L.
    - injection L as ->. reflexivity.
    - rewrite lift_step, L. reflexivity. }
  cbn [fst snd]. repeat split. unfold w4, w3, w2, record. cbn.
  now rewrite <- !app_assoc.
Qed.

Lemma scalar_document_aborts_witness :
  fst (run (mk_world (<[data1_path := readonly (JInt 42)]>
                      (<[data2_path := readonly (JList [])]> ∅)) true UTC [])) = 1.
Proof.
  refine (proj1 (scalar_document_aborts
    (mk_world (<[data1_path := readonly (JInt 42)]>
               (<[data2_path := readonly (JList [])]> ∅)) true UTC [])
    (JInt 42) (JList []) eq_refl eq_refl _)).
  right. left. reflexivity.
Defined.

(** ** The converters on their own output and across time zones *)

Lemma convert_data1_entry_on_unified tz sensor value timestamp :
  exists e, convert_data1_entry tz (unified sensor value timestamp) = inl e.
Proof.
  unfold unified. rewrite convert_data1_entry_unfold.
  change (field "timestamp" _) with timestamp. change (field "id" _) with JNull.
  destruct (truthy timestamp); [|eauto].
  destruct (strptime timestamp); cbn; eauto.
Qed.

(** A unified entry is not a valid input of either converter: Format A
    misses its [id], Format B its [deviceId].  A list of unified entries,
    such as an earlier [output.json], converts to nothing. *)
Theorem output_is_no_input (tz : timezone) (l : list json) :
  Forall is_unified l ->
  convert_dataset l (convert_data1_entry tz) = []
  /\ convert_dataset l convert_data2_entry = []
  /\ Forall (fun x => convert_data2_entry x = raise (ValueError (Missing_deviceId x))) l.
Proof.
  intros U. rewrite !convert_dataset_conversions.
  assert (Forall (fun x => convert_data2_entry x = raise (ValueError (Missing_deviceId x))) l)
    as H2.
  { eapply Forall_impl; [exact U|]. now intros x (sensor & value & timestamp & ->). }
  repeat split; [| |exact H2]; apply conversions_all_fail.
  - eapply Forall_impl; [exact U|]. intros x (sensor & value & timestamp & ->).
    apply convert_data1_entry_on_unified.
  - eapply Forall_impl; [exact H2|]. intros x ->. now eexists.
Qed.

Lemma output_is_no_input_witness :
  convert_dataset [unified (JStr "sensor-1") (JInt 3) (JInt docstring_ms)]
    (convert_data1_entry UTC) = []
  /\ convert_dataset [unified (JStr "sensor-1") (JInt 3) (JInt docstring_ms)]
       convert_data2_entry = []
  /\ Forall (fun x => convert_data2_entry x = raise (ValueError (Missing_deviceId x)))
       [unified (JStr "sensor-1") (JInt 3) (JInt docstring_ms)].
Proof.
  apply (output_is_no_input UTC). repeat constructor. now eexists _, _, _.
Defined.



Lemma strptime_returns_for_str v dt : strptime v = inr dt -> exists s, v = JStr s.
Proof. destruct v; try discriminate. eauto. Qed.

(** The timestamp of a converted Format-A entry is an integer of magnitude
    below [2^53], in every zone whose offset is at most a day: the float
    product in [int(dt.timestamp() * 1000)] is exact. *)
Theorem converted_timestamp_is_exact (k : Z) (entry x : json) :
  - 86400 <= k <= 86400 ->
  convert_data1_entry (fixed_offset k) entry = inr x ->
  exists ms, timestamp_of x = JInt ms /\ - 2 ^ 53 < ms < 2 ^ 53.
Proof.
  intros Hk (kvs & dt & -> & Hp & _ & _ & ->)%convert_data1_entry_returns.
  eexists. split; [reflexivity|].
  destruct (strptime_returns_for_str _ _ Hp) as [s Hs]. rewrite Hs in Hp.
  apply timestamp_times_1000_exact; [|assumption]. now apply (strptime_valid s).
Qed.

Lemma converted_timestamp_is_exact_witness :
  exists ms,
    timestamp_of (unified (JStr "sensor-1") (JFloat (Ffinite false 47 (-1)))
                    (JInt (docstring_ms - 19800 * 1000))) = JInt ms
    /\ - 2 ^ 53 < ms < 2 ^ 53.
Proof.
  apply (converted_timestamp_is_exact 19800 docstring_data1); [lia|reflexivity].
Defined.

(** ** Chronological order and epoch order *)

Lemma days_before_year_step y :
  days_before_year (y + 1) = days_before_year y + year_length y.
Proof.
  unfold days_before_year, year_length, is_leap.
  replace (y + 1 - 1) with y by lia.
  destruct (y mod 4 =? 0) eqn:E4; destruct (y mod 100 =? 0) eqn:E100;
    destruct (y mod 400 =? 0) eqn:E400; cbn [andb orb negb];
    rewrite ?Z.eqb_eq, ?Z.eqb_neq in *; Z.div_mod_to_equations; lia.
Qed.

Lemma days_before_year_mono y y' : y <= y' -> days_before_year y <= days_before_year y'.
Proof. unfold days_before_year. intros H. Z.div_mod_to_equations. lia. Qed.

Lemma day_of_year_range y m d :
  1 <= m <= 12 -> 1 <= d <= days_in_month y m ->
  1 <= days_before_month y m + d <= year_length y.
Proof.
  intros Hm. unfold days_before_month, days_in_month, year_length.
  assert (m = 1 \/ m = 2 \/ m = 3 \/ m = 4 \/ m = 5 \/ m = 6 \/ m = 7 \/ m = 8 \/ m = 9
          \/ m = 10 \/ m = 11 \/ m = 12) as Hcase by lia.
  destruct (is_leap y);
    destruct Hcase as [->|[->|[->|[->|[->|[->|[->|[->|[->|[->|[->| ->]]]]]]]]]]];
    vm_compute (nth _ _ _); cbn; lia.
Qed.

Lemma days_before_month_next y m m' d :
  1 <= m -> m < m' -> m' <= 12 -> d <= days_in_month y m ->
  days_before_month y m + d <= days_before_month y m'.
Proof.
  intros H1 H2 H3. unfold days_before_month, days_in_month.
  assert (m = 1 \/ m = 2 \/ m = 3 \/ m = 4 \/ m = 5 \/ m = 6 \/ m = 7 \/ m = 8 \/ m = 9
          \/ m = 10 \/ m = 11) as Hm by lia.
  assert (m' = 2 \/ m' = 3 \/ m' = 4 \/ m' = 5 \/ m' = 6 \/ m' = 7 \/ m' = 8
          \/ m' = 9 \/ m' = 10 \/ m' = 11 \/ m' = 12) as Hm' by lia.
  destruct (is_leap y);
    destruct Hm as [->|[->|[->|[->|[->|[->|[->|[->|[->|[->| ->]]]]]]]]]];
    destruct Hm' as [->|[->|[->|[->|[->|[->|[->|[->|[->|[->| ->]]]]]]]]]];
    try lia; vm_compute (nth _ _ _); vm_compute (nth _ _ _); cbn; lia.
Qed.

Lemma utc_to_seconds_mono dt1 dt2 :
  valid_datetime dt1 -> valid_datetime dt2 -> precedes dt1 dt2 ->
  utc_to_seconds dt1 < utc_to_seconds dt2.
Proof.
  destruct dt1 as [y1 m1 d1 h1 n1 s1], dt2 as [y2 m2 d2 h2 n2 s2].
  unfold valid_datetime, precedes, utc_to_seconds, ymd_to_ord.
  cbn [year month day hour minute second].
  intros (Hy1 & Hm1 & Hd1 & Hh1 & Hn1 & Hs1) (Hy2 & Hm2 & Hd2 & Hh2 & Hn2 & Hs2) P.
  pose proof (day_of_year_range y1 m1 d1 Hm1 Hd1) as D1.
  pose proof (day_of_year_range y2 m2 d2 Hm2 Hd2) as D2.
  destruct P as [P|[-> P]].
  { pose proof (days_before_year_step y1) as S.
    pose proof (days_before_year_mono (y1 + 1) y2 ltac:(lia)). lia. }
  destruct P as [P|[-> P]].
  { pose proof (days_before_month_next y2 m1 m2 d1 ltac:(lia) P ltac:(lia) ltac:(lia)). lia. }
  lia.
Qed.

Lemma precedes_trichotomy dt1 dt2 : precedes dt1 dt2 \/ dt1 = dt2 \/ precedes dt2 dt1.
Proof.
  destruct dt1 as [y1 m1 d1 h1 n1 s1], dt2 as [y2 m2 d2 h2 n2 s2].
  unfold precedes. cbn [year month day hour minute second].
  destruct (Z.lt_trichotomy y1 y2) as [?|[->|?]]; [left; lia| |right; right; lia].
  destruct (Z.lt_trichotomy m1 m2) as [?|[->|?]]; [left; lia| |right; right; lia].
  destruct (Z.lt_trichotomy d1 d2) as [?|[->|?]]; [left; lia| |right; right; lia].
  destruct (Z.lt_trichotomy h1 h2) as [?|[->|?]]; [left; lia| |right; right; lia].
  destruct (Z.lt_trichotomy n1 n2) as [?|[->|?]]; [left; lia| |right; right; lia].
  destruct (Z.lt_trichotomy s1 s2) as [?|[->|?]]; [left; lia| |right; right; lia].
  right. now left.
Qed.

Lemma py_lt_integers a b : py_lt (JInt a) (JInt b) = ret (a <? b).
Proof.
  cbn. unfold ret. f_equal.
  destruct (a <? b) eqn:E.
  - apply Z.ltb_lt in E. unfold Qcompare. cbn. rewrite !Z.mul_1_r.
    now apply Z.compare_lt_iff in E as ->.
  - apply Z.ltb_ge in E. unfold Qcompare. cbn. rewrite !Z.mul_1_r.
    destruct (a ?= b) eqn:C; try reflexivity.
    rewrite Z.compare_lt_iff in C. lia.
Qed.

Lemma py_eq_integers a b : py_eq (JInt a) (JInt b) = (a =? b).
Proof.
  cbn. unfold Qeq_bool. cbn. now rewrite !Z.mul_1_r.
Qed.

(** Conversion of Format-A entries preserves chronological order: in any
    zone of constant offset, the converted timestamp of one entry is
    smaller than that of another exactly when its date and time of day is
    earlier, and equal exactly when they are the same. *)
Theorem conversion_preserves_order (k : Z) (kvs1 kvs2 : list (string * json))
  (dt1 dt2 : datetime) (x1 x2 : json) :
  strptime (field "timestamp" kvs1) = inr dt1 ->
  strptime (field "timestamp" kvs2) = inr dt2 ->
  convert_data1_entry (fixed_offset k) (JDict kvs1) = inr x1 ->
  convert_data1_entry (fixed_offset k) (JDict kvs2) = inr x2 ->
  (precedes dt1 dt2 <-> py_lt (timestamp_of x1) (timestamp_of x2) = ret true)
  /\ (dt1 = dt2 <-> py_eq (timestamp_of x1) (timestamp_of x2) = true).
Proof.
  intros P1 P2 C1 C2.
  apply convert_data1_entry_returns in C1 as (kvs1' & dt1' & [= <-] & P1' & _ & _ & ->).
  apply convert_data1_entry_returns in C2 as (kvs2' & dt2' & [= <-] & P2' & _ & _ & ->).
  rewrite P1 in P1'. rewrite P2 in P2'. injection P1' as <-. injection P2' as <-.
  change (timestamp_of (unified (field "id" kvs1) (field "value" kvs1)
                          (JInt (timestamp (fixed_offset k) dt1 * 1000))))
    with (JInt (timestamp (fixed_offset k) dt1 * 1000)).
  change (timestamp_of (unified (field "id" kvs2) (field "value" kvs2)
                          (JInt (timestamp (fixed_offset k) dt2 * 1000))))
    with (JInt (timestamp (fixed_offset k) dt2 * 1000)).
  destruct (strptime_returns_for_str _ _ P1) as [s1 Hs1]. rewrite Hs1 in P1.
  destruct (strptime_returns_for_str _ _ P2) as [s2 Hs2]. rewrite Hs2 in P2.
  apply strptime_valid in P1, P2.
  rewrite py_lt_integers, py_eq_integers, !timestamp_fixed_offset.
  unfold ret. rewrite Z.eqb_eq.
  destruct (precedes_trichotomy dt1 dt2) as [T|[T|T]].
  - pose proof (utc_to_seconds_mono _ _ P1 P2 T) as M. split; split; intros H.
    + f_equal. apply Z.ltb_lt. lia.
    + assumption.
    + subst dt2. lia.
    + lia.
  - subst dt2. split; split; intros H; try reflexivity.
    + pose proof (utc_to_seconds_mono _ _ P1 P1 H). lia.
    + injection H as H. apply Z.ltb_lt in H. lia.
  - pose proof (utc_to_seconds_mono _ _ P2 P1 T) as M. split; split; intros H.
    + pose proof (utc_to_seconds_mono _ _ P1 P2 H). lia.
    + injection H as H. apply Z.ltb_lt in H. lia.
    + subst dt2. lia.
    + lia.
Qed.

Lemma conversion_preserves_order_witness :
  py_lt (timestamp_of (unified (JStr "sensor-1") (JFloat (Ffinite false 47 (-1)))
                         (JInt docstring_ms)))
        (timestamp_of (unified (JStr "sensor-1") (JInt 0) (JInt (docstring_ms + 1000))))
  = ret true.
Proof.
  apply (proj1 (proj1 (conversion_preserves_order 0
    [("id", JStr "sensor-1"); ("value", JFloat (Ffinite false 47 (-1)));
     ("timestamp", JStr "2023-06-01T12:00:00Z")]
    [("id", JStr "sensor-1"); ("value", JInt 0);
     ("timestamp", JStr "2023-06-01T12:00:01Z")]
    (mk_datetime 2023 6 1 12 0 0) (mk_datetime 2023 6 1 12 0 1) _ _
    eq_refl eq_refl eq_refl eq_refl))).
  unfold precedes. cbn. lia.
Defined.

(** ** The shape of the timestamps that are accepted *)

Lemma match_seq_split alt : forall s got mid,
  match_seq alt s = Some (got, mid) ->
  s = (got ++ mid)%string /\ String.length got = length alt.
Proof.
  induction alt as [|a alt IH]; intros s got mid H.
  - apply match_seq_nil_inv in H as [-> ->]. now split.
  - apply match_seq_cons_inv in H as (c & s' & got' & -> & _ & H & ->).
    destruct (IH _ _ _ H) as [-> L]. cbn. now rewrite L.
Qed.

Lemma atom_Chr_T c : atom_matches (Chr "T") c = true -> (c = "T" \/ c = "t")%char.
Proof.
  destruct c as [[] [] [] [] [] [] [] []]; vm_compute; intros H;
    try discriminate H; auto.
Qed.

Lemma atom_Chr_Z c : atom_matches (Chr "Z") c = true -> (c = "Z" \/ c = "z")%char.
Proof.
  destruct c as [[] [] [] [] [] [] [] []]; vm_compute; intros H;
    try discriminate H; auto.
Qed.

Lemma string_length_append a b :
  String.length (a ++ b)%string = (String.length a + String.length b)%nat.
Proof.
  induction a as [|c a IH]; [reflexivity|].
  change (S (String.length (a ++ b)%string) = S (String.length a + String.length b)%nat).
  now rewrite IH.
Qed.

Ltac alt_length Hin Hlen :=
  cbn [In] in Hin;
  repeat (destruct Hin as [<-|Hin]; [cbn [length] in Hlen|]); try contradiction.

Lemma format_regex_split s groups rest :
  re_match format_regex s = Some (groups, rest) ->
  exists gY gm gd gH gM gS t z,
    groups = [gY; gm; gd; gH; gM; gS]
    /\ s = (gY ++ "-" ++ gm ++ "-" ++ gd ++ String t (gH ++ ":" ++ gM ++ ":" ++ gS
              ++ String z rest))%string
    /\ String.length gY = 4%nat
    /\ short gm /\ short gd /\ short gH /\ short gM /\ short gS
    /\ (t = "T" \/ t = "t")%char /\ (z = "Z" \/ z = "z")%char.
Proof.
  unfold format_regex. intros H.
  apply re_match_group_inv in H as (aY & gY & ? & ? & IY & MY & H & ->).
  apply match_seq_split in MY as [-> LY].
  apply re_match_plain_inv in H as (? & ? & -> & ->%atom_Chr & H); [|vm_compute; lia].
  apply re_match_group_inv in H as (am & gm & ? & ? & Im & Mm & H & ->).
  apply match_seq_split in Mm as [-> Lm].
  apply re_match_plain_inv in H as (? & ? & -> & ->%atom_Chr & H); [|vm_compute; lia].
  apply re_match_group_inv in H as (ad & gd & ? & ? & Id & Md & H & ->).
  apply match_seq_split in Md as [-> Ld].
  apply re_match_plain_inv in H as (t & ? & -> & Ht%atom_Chr_T & H).
  apply re_match_group_inv in H as (aH & gH & ? & ? & IH & MH & H & ->).
  apply match_seq_split in MH as [-> LH].
  apply re_match_plain_inv in H as (? & ? & -> & ->%atom_Chr & H); [|vm_compute; lia].
  apply re_match_group_inv in H as (aM & gM & ? & ? & IM & MM & H & ->).
  apply match_seq_split in MM as [-> LM].
  apply re_match_plain_inv in H as (? & ? & -> & ->%atom_Chr & H); [|vm_compute; lia].
  apply re_match_group_inv in H as (aS & gS & ? & ? & IS & MS & H & ->).
  apply match_seq_split in MS as [-> LS].
  apply re_match_plain_inv in H as (z & ? & -> & Hz%atom_Chr_Z & [= <- <-]).
  exists gY, gm, gd, gH, gM, gS, t, z.
  split; [reflexivity|]. split; [reflexivity|].
  unfold short.
  alt_length IY LY. alt_length Im Lm. all: alt_length Id Ld. all: alt_length IH LH.
  all: alt_length IM LM. all: alt_length IS LS.
  all: repeat split; try assumption; lia.
Qed.

(** An accepted timestamp spells a four-character year and five fields of
    one or two characters, separated by [-], [-], [T] or [t], [:], [:] and
    closed by [Z] or [z], with nothing before or after: it has 15 to 20
    characters, and the date returned is the value of those fields. *)
Lemma accepted_timestamp_shape (s : string) (dt : datetime) :
  strptime (JStr s) = inr dt ->
  (exists gY gm gd gH gM gS,
     spelled s gY gm gd gH gM gS
     /\ dt = mk_datetime (int_of gY) (int_of gm) (int_of gd)
                         (int_of gH) (int_of gM) (int_of gS))
  /\ (15 <= String.length s <= 20)%nat.
Proof.
  unfold strptime.
  destruct (re_match format_regex s) as [[groups rest]|] eqn:R; [|discriminate].
  apply format_regex_split in R
    as (gY & gm & gd & gH & gM & gS & t & z & -> & -> & LY & Lm & Ld & LH & LM & LS & Ht & Hz).
  destruct (String.eqb_spec rest "") as [->|]; [|discriminate].
  cbn [year month day second].
  repeat match goal with
         | |- context [if ?c then _ else _] => destruct c; [|discriminate]
         end.
  intros [= <-]. split.
  - exists gY, gm, gd, gH, gM, gS. split; [|reflexivity].
    exists t, z. split; [reflexivity|]. tauto.
  - unfold short in *.
    repeat (rewrite string_length_append
            || change (String.length (String ?c ?r)) with (S (String.length r))).
    cbn [String.length]. lia.
Qed.



(** ** Sorting strings, and sorting in general *)

Lemma ascii_eqb_codes a b : Ascii.eqb a b = (nat_of_ascii a =? nat_of_ascii b)%nat.
Proof.
  destruct (Ascii.eqb_spec a b) as [->|N].
  - now rewrite Nat.eqb_refl.
  - symmetry. apply Nat.eqb_neq. intros E. apply N.
    now rewrite <- (ascii_nat_embedding a), <- (ascii_nat_embedding b), E.
Qed.

Lemma string_ltb_step a s b t :
  string_ltb (String a s) (String b t)
  = if (nat_of_ascii a <? nat_of_ascii b)%nat then true
    else if (nat_of_ascii a =? nat_of_ascii b)%nat then string_ltb s t else false.
Proof. cbn [string_ltb]. now rewrite ascii_eqb_codes. Qed.

Ltac codes :=
  repeat match goal with
         | |- context [(?x <? ?y)%nat] => destruct (Nat.ltb_spec x y)
         | |- context [(?x =? ?y)%nat] => destruct (Nat.eqb_spec x y)
         | H : context [(?x <? ?y)%nat] |- _ => destruct (Nat.ltb_spec x y)
         | H : context [(?x =? ?y)%nat] |- _ => destruct (Nat.eqb_spec x y)
         end.

Lemma string_ltb_irrefl s : string_ltb s s = false.
Proof.
  induction s as [|a s IH]; [reflexivity|]. rewrite string_ltb_step. codes; auto; lia.
Qed.

Lemma string_ltb_trans s : forall t u,
  string_ltb s t = true -> string_ltb t u = true -> string_ltb s u = true.
Proof.
  induction s as [|a s IH]; intros [|b t] [|c u]; try (cbn; congruence).
  rewrite !string_ltb_step. intros H1 H2.
  codes; try discriminate; try reflexivity; try lia. eauto.
Qed.

Lemma string_ltb_cotrans s : forall t u,
  string_ltb s t = false -> string_ltb t u = false -> string_ltb s u = false.
Proof.
  induction s as [|a s IH]; intros [|b t] [|c u]; try (cbn; congruence).
  rewrite !string_ltb_step. intros H1 H2.
  codes; try discriminate; try reflexivity; try lia. eauto.
Qed.

Section Keyed.

Variable P : json -> Prop.
Variable lt : json -> json -> bool.

Hypothesis key_P : forall x, P x -> timestamp_key x = inr (timestamp_of x).
Hypothesis lt_P : forall x y,
  P x -> P y -> py_lt (timestamp_of x) (timestamp_of y) = ret (lt x y).

Lemma keys_ordered l : Forall P l -> map_result timestamp_key l = inr (map timestamp_of l).
Proof.
  induction 1 as [|x l Hx _ IH]; cbn; [reflexivity|]. now rewrite IH, (key_P x Hx).
Qed.

Lemma insort_ordered x sorted :
  P x -> Forall P sorted ->
  insort (decorate x) (map decorate sorted) = ret (map decorate (insert lt x sorted)).
Proof.
  intros Hx. induction 1 as [|y sorted Hy _ IH]; cbn; [reflexivity|].
  rewrite (lt_P x y Hx Hy). cbn.
  destruct (lt x y); [reflexivity|]. now rewrite IH.
Qed.

Lemma sort_keyed_ordered todo : forall sorted,
  Forall P todo -> Forall P sorted ->
  sort_keyed (map decorate todo) (map decorate sorted)
  = ret (map decorate (sort_from lt todo sorted)).
Proof.
  induction todo as [|x todo IH]; intros sorted Htodo Hsorted; cbn; [reflexivity|].
  apply Forall_cons in Htodo as [Hx Htodo].
  rewrite (insort_ordered x sorted Hx Hsorted). cbn.
  apply IH; [assumption|]. now apply insert_Forall.
Qed.

Lemma list_sort_ordered l :
  Forall P l -> list_sort timestamp_key l = ret (sort_from lt l []).
Proof.
  intros H. unfold list_sort. rewrite (keys_ordered l H). cbn.
  assert (combine (map timestamp_of l) l = map decorate l) as ->.
  { clear H. induction l as [|x l IH]; cbn; [reflexivity|]. now rewrite IH. }
  change (@nil (json * json)) with (map decorate []).
  rewrite (sort_keyed_ordered l [] H (List.Forall_nil _)). cbn.
  now rewrite snd_decorate.
Qed.

End Keyed.

Lemma py_eq_text_level a b t :
  py_eq a t = true -> py_eq b t = true -> text_of a = text_of b.
Proof.
  assert (forall v, py_eq v t = true ->
            match t with JStr u => v = JStr u | _ => text_of v = "" end) as H.
  { intros v Hv. destruct v, t; cbn in Hv; try discriminate Hv; try reflexivity.
    now apply String.eqb_eq in Hv as ->. }
  intros Ha%H Hb%H. destruct t; congruence.
Qed.

Lemma earlier_text_irrefl x : earlier_text x x = false.
Proof. apply string_ltb_irrefl. Qed.

Lemma earlier_text_trans x y z :
  earlier_text x y = true -> earlier_text y z = true -> earlier_text x z = true.
Proof. apply string_ltb_trans. Qed.

Lemma earlier_text_cotrans x y z :
  earlier_text x y = false -> earlier_text y z = false -> earlier_text x z = false.
Proof. apply string_ltb_cotrans. Qed.

Lemma text_timestamp_key x : has_text_timestamp x -> timestamp_key x = inr (timestamp_of x).
Proof. intros [s H]. now rewrite (timestamp_key_of _ _ H). Qed.

Lemma py_lt_earlier_text x y :
  has_text_timestamp x -> has_text_timestamp y ->
  py_lt (timestamp_of x) (timestamp_of y) = ret (earlier_text x y).
Proof.
  intros [s Hs] [t Ht]. unfold earlier_text.
  now rewrite (timestamp_key_of _ _ Hs), (timestamp_key_of _ _ Ht).
Qed.

Lemma sort_from_text_stably_sorted l :
  Forall has_text_timestamp l -> stably_sorted l (sort_from earlier_text l []).
Proof.
  intros H. repeat split.
  - apply (sort_from_perm earlier_text l []).
  - assert (Forall has_text_timestamp (sort_from earlier_text l [])) as Hout.
    { eapply Permutation_Forall; [apply (sort_from_perm earlier_text l [])|exact H]. }
    pose proof (sort_from_sorted earlier_text earlier_text_irrefl earlier_text_trans
                  earlier_text_cotrans l [] (SSorted_nil _)) as Hs.
    unfold ascending. revert Hout Hs. generalize (sort_from earlier_text l []).
    induction 2 as [|x out Hs IH Hx]; [constructor|].
    apply Forall_cons in Hout as [Nx Nout].
    constructor; [now apply IH|].
    rewrite Forall_forall in *. intros y Hy.
    rewrite (py_lt_earlier_text y x (Nout y Hy) Nx). f_equal. now apply Hx.
  - intros t.
    apply (sort_from_stable earlier_text earlier_text_irrefl earlier_text_trans
             earlier_text_cotrans (fun x => py_eq (timestamp_of x) t)).
    + intros x y Hx Hy. unfold earlier_text.
      rewrite (py_eq_text_level _ _ _ Hx Hy). apply string_ltb_irrefl.
    + constructor.
Qed.



(** ** Fields that matter *)

(** Both converters read three fields and nothing else: entries that agree
    on them, whatever their other keys and the order of their keys, are
    converted to the same unified entry, or both refused. *)
Theorem only_three_fields_matter (tz : timezone) (kvs kvs' : list (string * json)) :
  (field "timestamp" kvs = field "timestamp" kvs' ->
   field "id" kvs = field "id" kvs' ->
   field "value" kvs = field "value" kvs' ->
   forall x, convert_data1_entry tz (JDict kvs) = inr x
             <-> convert_data1_entry tz (JDict kvs') = inr x)
  /\ (field "deviceId" kvs = field "deviceId" kvs' ->
      field "reading" kvs = field "reading" kvs' ->
      field "time" kvs = field "time" kvs' ->
      forall x, convert_data2_entry (JDict kvs) = inr x
                <-> convert_data2_entry (JDict kvs') = inr x).
Proof.
  split.
  - intros E1 E2 E3 x. rewrite !convert_data1_entry_unfold, E1, E2, E3.
    destruct (truthy (field "timestamp" kvs')); [|split; discriminate].
    destruct (strptime (field "timestamp" kvs')); cbn [bind]; [split; discriminate|].
    destruct (truthy (field "id" kvs')); [|split; discriminate].
    destruct (negb (is_None (field "value" kvs'))); [reflexivity|split; discriminate].
  - intros E1 E2 E3 x. rewrite !convert_data2_entry_unfold, E1, E2, E3.
    destruct (truthy (field "deviceId" kvs')); [|split; discriminate].
    destruct (negb (is_None (field "reading" kvs'))); [|split; discriminate].
    destruct (negb (is_None (field "time" kvs'))); [reflexivity|split; discriminate].
Qed.

Lemma only_three_fields_matter_witness :
  convert_data2_entry
    (JDict [("unit", JStr "C"); ("time", JInt 1685624400000); ("note", JNull);
            ("reading", JFloat (Ffinite false 457 (-1))); ("deviceId", JStr "device-2")])
  = inr (unified (JStr "device-2") (JFloat (Ffinite false 457 (-1))) (JInt 1685624400000)).
Proof.
  apply (proj2 (only_three_fields_matter UTC
    [("deviceId", JStr "device-2"); ("reading", JFloat (Ffinite false 457 (-1)));
     ("time", JInt 1685624400000)]
    [("unit", JStr "C"); ("time", JInt 1685624400000); ("note", JNull);
     ("reading", JFloat (Ffinite false 457 (-1))); ("deviceId", JStr "device-2")])
    eq_refl eq_refl eq_refl). reflexivity.
Defined.

(** ** The file adapters *)

(** [load_json_file] changes no file and makes one call, the read.  It
    returns a value exactly when the file exists, may be read and holds
    JSON, and then that document; it raises [FileNotFoundError] exactly when
    the path does not exist; it never ends the process. *)
Theorem load_json_file_outcomes (path : string) (w : world) :
  after_calls w (snd (load_json_file path w)) [Open_read path]
  /\ (forall v, fst (load_json_file path w) = Returned v <-> readable_json w path = Some v)
  /\ (fst (load_json_file path w) = Raised (FileNotFoundError path)
      <-> files w !! path = None)
  /\ (forall code, fst (load_json_file path w) <> Exited code).
Proof.
  rewrite load_world. split; [repeat split|].
  unfold load_json_file, try_except, open_and_load, readable_json, lift, raise.
  destruct (files w !! path) as [[|[|] ? [?|]]|]; cbn [fst].
  all: split; [intros v; split; congruence|].
  all: split; [split; congruence|].
  all: congruence.
Qed.


Lemma load_json_file_outcomes_witness :
  readable_json sample_world data1_path = Some (JList [docstring_data1]).
Proof.
  apply (proj1 (proj1 (proj2 (load_json_file_outcomes data1_path sample_world))
                  (JList [docstring_data1]))).
  reflexivity.
Defined.

